(** * cli: sub-command registration and dispatch by reflection

    A shallow embedding of package [cli] (pnelson/cli-reflection): the
    registry of rules ([Rule]), the dispatcher ([Run]) and the usage
    printer ([printUsage]), together with the parts of Go's [reflect],
    [flag], [strconv] and [strings] packages that the package calls.

    Go's [int] is modelled by [Z]; a loop [for i := a; i < b; i++] runs
    over [seqZ a (b - a)]; a run-time panic is the [Panic] outcome of
    the [res] monad. *)

From Stdlib Require Import ZArith Ascii String DecimalString List Lia.
From stdpp Require Import base option list gmap strings fin_maps.

Local Open Scope string_scope.
Local Open Scope Z_scope.

(** ** Text helpers *)

(** The newline character and the double quote character. *)
Definition nl : string := String (ascii_of_nat 10) EmptyString.
Definition dquote : string := String (ascii_of_nat 34) EmptyString.

(** Go's [len(s)] on a string: its number of bytes. *)
Definition len_string (s : string) : Z := Z.of_nat (String.length s).

(** ** Outcomes of partial operations *)

Inductive res (A : Type) : Type :=
| Ret (a : A)
| Panic (msg : string).
Arguments Ret {A} a.
Arguments Panic {A} msg.

#[global] Instance res_ret : MRet res := fun A a => Ret a.
#[global] Instance res_bind : MBind res := fun A B f m =>
  match m with
  | Ret a => f a
  | Panic msg => Panic msg
  end.

(** Go's [len(l)] on a slice. *)
Definition len {A : Type} (l : list A) : Z := Z.of_nat (length l).

(** [l[i]], with Go's bounds check. *)
Definition index {A : Type} (l : list A) (i : Z) : res A :=
  if (i <? 0) || (len l <=? i) then Panic "runtime error: index out of range"
  else match l !! Z.to_nat i with
       | Some x => Ret x
       | None => Panic "runtime error: index out of range"
       end.

(** [l[i] = x], with Go's bounds check. *)
Definition store {A : Type} (l : list A) (i : Z) (x : A) : res (list A) :=
  if (i <? 0) || (len l <=? i) then Panic "runtime error: index out of range"
  else Ret (<[Z.to_nat i := x]> l).

(** What the body of a handler's [Run] does to the process streams:
    it writes on standard output, or it calls the usage function it
    was given (as [commandHelp] does). *)
Inductive effect : Type :=
| Stdout (text : string)
| CallUsage.

(** ** Package reflect *)

Module reflect.

Inductive Kind : Type :=
| Invalid | Bool | Int | Int8 | Int16 | Int32 | Int64
| Uint | Uint8 | Uint16 | Uint32 | Uint64 | Uintptr
| Float32 | Float64 | Complex64 | Complex128
| Array | Chan | Func | Interface | Map | Pointer | Slice | String
| Struct | UnsafePointer.

#[global] Instance Kind_eq_dec : EqDecision Kind.
Proof. solve_decision. Defined.

(** The predeclared types of a basic kind. *)
Inductive basic : Type :=
| Tbool | Tint | Tint8 | Tint16 | Tint32 | Tint64
| Tuint | Tuint8 | Tuint16 | Tuint32 | Tuint64 | Tuintptr
| Tfloat32 | Tfloat64 | Tcomplex64 | Tcomplex128
| Tstring | TunsafePointer.

#[global] Instance basic_eq_dec : EqDecision basic.
Proof. solve_decision. Defined.

Definition basic_Kind (b : basic) : Kind :=
  match b with
  | Tbool => Bool | Tint => Int | Tint8 => Int8 | Tint16 => Int16
  | Tint32 => Int32 | Tint64 => Int64
  | Tuint => Uint | Tuint8 => Uint8 | Tuint16 => Uint16
  | Tuint32 => Uint32 | Tuint64 => Uint64 | Tuintptr => Uintptr
  | Tfloat32 => Float32 | Tfloat64 => Float64
  | Tcomplex64 => Complex64 | Tcomplex128 => Complex128
  | Tstring => String | TunsafePointer => UnsafePointer
  end.

(** A Go type as [reflect.Type] presents it. Function, interface and
    struct literals are told apart by their text only: the package
    never looks inside one. [Defined name u] is [type name u]. *)
Inductive rtype : Type :=
| Basic (b : basic)
| ArrayOf (n : Z) (e : rtype)
| ChanOf (e : rtype)
| FuncLit (text : string)
| InterfaceLit (text : string)
| MapOf (k e : rtype)
| PointerTo (e : rtype)
| SliceOf (e : rtype)
| StructLit (text : string)
| Defined (name : string) (u : rtype).

#[global] Instance rtype_eq_dec : EqDecision rtype.
Proof. solve_decision. Defined.

(** [Type.Kind()]. *)
Fixpoint Type_Kind (t : rtype) : Kind :=
  match t with
  | Basic b => basic_Kind b
  | ArrayOf _ _ => Array
  | ChanOf _ => Chan
  | FuncLit _ => Func
  | InterfaceLit _ => Interface
  | MapOf _ _ => Map
  | PointerTo _ => Pointer
  | SliceOf _ => Slice
  | StructLit _ => Struct
  | Defined _ u => Type_Kind u
  end.

(** [Type.Elem()]: panics unless the kind is Array, Chan, Map,
    Pointer or Slice. *)
Fixpoint Type_Elem (t : rtype) : res rtype :=
  match t with
  | ArrayOf _ e | ChanOf e | MapOf _ e | PointerTo e | SliceOf e => Ret e
  | Defined _ u => Type_Elem u
  | Basic _ | FuncLit _ | InterfaceLit _ | StructLit _ =>
      Panic "reflect: Elem of invalid type"
  end.

(** The type of a function: for a method taken from a concrete type,
    the receiver is the first input. *)
Record FuncType : Type := {
  ins : list rtype;
  outs : list rtype;
  IsVariadic : bool
}.

Definition NumIn (t : FuncType) : Z := len (ins t).
Definition NumOut (t : FuncType) : Z := len (outs t).

Definition In (t : FuncType) (i : Z) : res rtype :=
  if (i <? 0) || (NumIn t <=? i) then Panic "reflect: Func index out of bounds"
  else index (ins t) i.

Definition Out (t : FuncType) (i : Z) : res rtype :=
  if (i <? 0) || (NumOut t <=? i) then Panic "reflect: Func index out of bounds"
  else index (outs t) i.

(** What a [reflect.Value] holds, as far as the package can tell. *)
Inductive data : Type :=
| Str (s : string)
| Strs (l : list string)
| IntD (n : Z)
| Opaque.

(** A [reflect.Value]: the zero Value [reflect.Value{}], or a value
    with its type. *)
Inductive Value : Type :=
| ZeroValue
| Val (t : rtype) (d : data).

Definition Value_Kind (v : Value) : Kind :=
  match v with
  | ZeroValue => Invalid
  | Val t _ => Type_Kind t
  end.

Definition IsValid (v : Value) : bool :=
  match v with
  | ZeroValue => false
  | Val _ _ => true
  end.

(** [reflect.TypeOf] of a string. *)
Definition TypeOf_string : rtype := Basic Tstring.

(** [reflect.ValueOf(s)] for a string [s]. *)
Definition ValueOf_string (s : string) : Value := Val TypeOf_string (Str s).

(** [reflect.Zero(t)]. *)
Definition Zero (t : rtype) : Value :=
  Val t match Type_Kind t with
        | String => Str EmptyString
        | Slice => Strs []
        | Int | Int8 | Int16 | Int32 | Int64 => IntD 0
        | _ => Opaque
        end.

Definition is_int_Kind (k : Kind) : bool :=
  match k with
  | Int | Int8 | Int16 | Int32 | Int64 => true
  | _ => false
  end.

(** [Value.Int()]: panics unless the kind is one of the signed
    integer kinds. *)
Definition Value_Int (v : Value) : res Z :=
  match v with
  | Val t (IntD n) =>
      if is_int_Kind (Type_Kind t) then Ret n
      else Panic "reflect: call of reflect.Value.Int on non-int Value"
  | _ => Panic "reflect: call of reflect.Value.Int on non-int Value"
  end.

(** Defined and predeclared types have a name; type literals have
    none. *)
Definition hasName (t : rtype) : bool :=
  match t with
  | Basic _ | Defined _ _ => true
  | _ => false
  end.

Fixpoint underlying (t : rtype) : rtype :=
  match t with
  | Defined _ u => underlying u
  | _ => t
  end.

(** [V.AssignableTo(T)]: identical types, or identical underlying
    types when one of the two is not a named type. Assignment to an
    interface type by method set is left out: [Rule] admits no
    parameter of interface kind. *)
Definition AssignableTo (V T : rtype) : bool :=
  bool_decide (V = T)
  || (negb (hasName V && hasName T)
      && bool_decide (underlying V = underlying T)).

Definition Value_assignable (v : Value) (T : rtype) : bool :=
  match v with
  | ZeroValue => false
  | Val V _ => AssignableTo V T
  end.

(** [reflect.Append(s, x)] for one [x]. *)
Definition Append (s x : Value) : res Value :=
  match s with
  | Val t (Strs l) =>
      match Type_Kind t, Type_Elem t, x with
      | Slice, Ret e, Val tx (Str a) =>
          if AssignableTo tx e then Ret (Val t (Strs (l ++ [a])))
          else Panic "reflect.Set: value is not assignable to the element type"
      | Slice, _, _ => Panic "reflect.Set: value is not assignable to the element type"
      | _, _, _ => Panic "reflect: call of reflect.Append on non-slice Value"
      end
  | _ => Panic "reflect: call of reflect.Append on non-slice Value"
  end.

(** A method as [Type.MethodByName] returns it. [Method_Func] takes the
    receiver first; it yields what the body did to the streams and
    the results, or panics. *)
Record Method : Type := {
  Method_Name : string;
  Method_Type : FuncType;
  Method_Func : list Value -> res (list effect * list Value)
}.

(** The variadic packing of [Value.Call]: the arguments from [n] on
    become one slice of the final input's type. *)
Fixpoint pack (elem : rtype) (xs : list Value) : res (list string) :=
  match xs with
  | [] => Ret []
  | x :: xs' =>
      if Value_assignable x elem then
        match x with
        | Val _ (Str a) => l ← pack elem xs'; Ret (a :: l)
        | _ => l ← pack elem xs'; Ret l
        end
      else Panic "reflect: cannot use argument as element type in Call"
  end.

Fixpoint all_assignable (xs : list Value) (ts : list rtype) : bool :=
  match xs, ts with
  | x :: xs', t :: ts' => Value_assignable x t && all_assignable xs' ts'
  | _, _ => true
  end.

(** [m.Func.Call(in)]. Go's panic for an unassignable argument names
    the two types; the messages here do not. *)
Definition Call (m : Method) (in_ : list Value)
  : res (list effect * list Value) :=
  let t := Method_Type m in
  let n := if IsVariadic t then NumIn t - 1 else NumIn t in
  if len in_ <? n then Panic "reflect: Call with too few input arguments"
  else if negb (IsVariadic t) && (n <? len in_)
  then Panic "reflect: Call with too many input arguments"
  else if negb (forallb IsValid in_)
  then Panic "reflect: Call using zero Value argument"
  else if negb (all_assignable (take (Z.to_nat n) in_) (ins t))
  then Panic "reflect: Call using argument of unassignable type"
  else if IsVariadic t then
    final ← In t n;
    elem ← Type_Elem final;
    l ← pack elem (drop (Z.to_nat n) in_);
    Method_Func m (take (Z.to_nat n) in_ ++ [Val final (Strs l)])
  else Method_Func m in_.

End reflect.

(** ** Package strconv *)

Module strconv.

(** The value of a decimal digit. *)
Definition digit (c : ascii) : option Z :=
  let n := Z.of_N (N_of_ascii c) in
  if (48 <=? n) && (n <=? 57) then Some (n - 48) else None.

Fixpoint digits (s : string) (acc : Z) : option Z :=
  match s with
  | EmptyString => Some acc
  | String c r =>
      match digit c with
      | Some d => digits r (acc * 10 + d)
      | None => None
      end
  end.

Definition is_sign (c : ascii) : bool :=
  Ascii.eqb c "+"%char || Ascii.eqb c "-"%char.

(** [strconv.Atoi(s)] on a machine whose [int] has 64 bits: [Some n]
    when the error is nil. The text is an optional sign followed by
    at least one decimal digit, and the number fits an [int]. *)
Definition Atoi (s : string) : option Z :=
  match s with
  | EmptyString => None
  | String c r =>
      let body := if is_sign c then r else s in
      match body with
      | EmptyString => None
      | _ =>
          match digits body 0 with
          | Some n =>
              let v := if Ascii.eqb c "-"%char then - n else n in
              if (- 2 ^ 63 <=? v) && (v <? 2 ^ 63) then Some v else None
          | None => None
          end
      end
  end.

(** [strconv.Itoa(n)]. *)
Definition Itoa (n : Z) : string := NilZero.string_of_int (Z.to_int n).

(** [strconv.FormatBool(b)]. *)
Definition FormatBool (b : bool) : string := if b then "true" else "false".

End strconv.

(** ** Package strings *)

Module gostrings.

Fixpoint repeat_string (s : string) (n : nat) : string :=
  match n with
  | O => EmptyString
  | S n' => s ++ repeat_string s n'
  end.

(** [strings.Repeat(s, count)]: panics on a negative count. *)
Definition Repeat (s : string) (count : Z) : res string :=
  if count <? 0 then Panic "strings: negative Repeat count"
  else Ret (repeat_string s (Z.to_nat count)).

End gostrings.

(** ** Package flag *)

Module flag.

Inductive ErrorHandling : Type :=
| ContinueOnError | ExitOnError | PanicOnError.

(** The dynamic value behind a flag: the package's own boolean,
    integer and string values, or a value of the caller's with its
    text and its answer to [IsBoolFlag]. *)
Inductive Value : Type :=
| boolValue (b : bool)
| intValue (n : Z)
| stringValue (s : string)
| userValue (text : string) (isBool : bool).

Definition Value_String (v : Value) : string :=
  match v with
  | boolValue b => strconv.FormatBool b
  | intValue n => strconv.Itoa n
  | stringValue s => s
  | userValue text _ => text
  end.

Definition IsBoolFlag (v : Value) : bool :=
  match v with
  | boolValue _ => true
  | userValue _ b => b
  | _ => false
  end.

Record Flag : Type := {
  Name : string;
  Usage : string;
  Value_ : Value;
  DefValue : string
}.

(** A flag set: the flags defined so far and, after parsing, the
    arguments that are left. *)
Record FlagSet : Type := {
  name : string;
  errorHandling : ErrorHandling;
  formal : list Flag;
  args : list string
}.

Definition NewFlagSet (name : string) (errorHandling : ErrorHandling)
  : FlagSet :=
  {| name := name; errorHandling := errorHandling; formal := []; args := [] |}.

Definition defined (f : FlagSet) (name : string) : bool :=
  existsb (fun fl => String.eqb (Name fl) name) (formal f).

(** [f.Var(value, name, usage)]: the default text is the text of
    the value at definition time; defining a name twice panics. *)
Definition Var (value : Value) (name usage : string) (f : FlagSet)
  : res FlagSet :=
  if defined f name then Panic ("flag redefined: " ++ name)
  else Ret {| flag.name := flag.name f;
              errorHandling := errorHandling f;
              formal := formal f ++ [ {| Name := name; Usage := usage;
                                         Value_ := value;
                                         DefValue := Value_String value |} ];
              args := args f |}.

(** [f.Bool(name, value, usage)], [f.Int(...)], [f.String(...)]. *)
Definition Bool (name : string) (value : bool) (usage : string) :=
  Var (boolValue value) name usage.
Definition Int (name : string) (value : Z) (usage : string) :=
  Var (intValue value) name usage.
Definition String_ (name value usage : string) :=
  Var (stringValue value) name usage.

Fixpoint insert_sorted (fl : Flag) (l : list Flag) : list Flag :=
  match l with
  | [] => [fl]
  | x :: l' =>
      if String.leb (Name fl) (Name x) then fl :: l
      else x :: insert_sorted fl l'
  end.

(** The flags [f.VisitAll] visits: all of them, in the order of
    their names. *)
Definition VisitAll (f : FlagSet) : list Flag :=
  foldr insert_sorted [] (formal f).

Definition Args (f : FlagSet) : list string := args f.
Definition NArg (f : FlagSet) : Z := len (args f).

(** [f.Arg(i)]: the empty string when there is no such argument. *)
Definition Arg (f : FlagSet) (i : Z) : string :=
  match index (args f) i with
  | Ret s => s
  | Panic _ => EmptyString
  end.

End flag.

(** ** The process: streams and exit *)

Record streams : Type := {
  stdout : string;
  stderr : string
}.

(** How a process ends: [os.Exit(code)], a panic, or an exit taken
    inside the flag package (a flag set made with [flag.ExitOnError]
    ends the process itself when parsing fails). *)
Inductive ending : Type :=
| Exit (code : Z)
| Panicked (msg : string)
| FlagExit.

Inductive step (A : Type) : Type :=
| Next (a : A) (s : streams)
| Stop (e : ending) (s : streams).
Arguments Next {A} a s.
Arguments Stop {A} e s.

(** A command of the process: it reads and extends the streams, and
    either goes on with a value or ends the process. *)
Record proc (A : Type) : Type := Proc { run : streams -> step A }.
Arguments Proc {A} run.
Arguments run {A} p s.

#[global] Instance proc_ret : MRet proc := fun A a => Proc (fun s => Next a s).
#[global] Instance proc_bind : MBind proc := fun A B f m =>
  Proc (fun s => match run m s with
                 | Next a s' => run (f a) s'
                 | Stop e s' => Stop e s'
                 end).

(** A partial operation inside the process: its panic ends it. *)
Definition lift {A : Type} (r : res A) : proc A :=
  Proc (fun s => match r with
                 | Ret a => Next a s
                 | Panic msg => Stop (Panicked msg) s
                 end).

Inductive Writer : Type := os_Stdout | os_Stderr.

(** [fmt.Fprintf(w, ...)] with the formatted text. *)
Definition Fprintf (w : Writer) (text : string) : proc unit :=
  Proc (fun s => Next tt match w with
                         | os_Stdout => {| stdout := stdout s ++ text;
                                           stderr := stderr s |}
                         | os_Stderr => {| stdout := stdout s;
                                           stderr := stderr s ++ text |}
                         end).

(** [os.Exit(code)]. *)
Definition os_Exit {A : Type} (code : Z) : proc A :=
  Proc (fun s => Stop (Exit code) s).

(** A loop [for _, x := range l { body }]. *)
Fixpoint for_each {A : Type} (l : list A) (body : A -> proc unit) : proc unit :=
  match l with
  | [] => mret tt
  | x :: l' => body x ≫= fun _ => for_each l' body
  end.

Definition no_streams : streams :=
  {| stdout := EmptyString; stderr := EmptyString |}.

(** ** Package cli *)

Module cli.

(** A method declared on a handler's type: its parameters after the
    receiver, whether the last one is written [...T], its results,
    and its body as a function of the arguments after the
    receiver. *)
Record method_decl : Type := {
  decl_name : string;
  decl_params : list reflect.rtype;
  decl_variadic : bool;
  decl_results : list reflect.rtype;
  decl_body : list reflect.Value -> res (list effect * list reflect.Value)
}.

(** A value of interface type [command]: its dynamic type, the
    exported methods of that type besides [String] and [Flags], the
    text [String()] returns, and what [Flags] does to the flag set
    it is given. A handler is a value, never the nil interface. *)
Record command : Type := {
  TypeOf : reflect.rtype;
  methods : list method_decl;
  command_String : string;
  Flags : flag.FlagSet -> res flag.FlagSet
}.

(** The method as reflection presents it: the receiver is the first
    input of its type and the first argument of its function. *)
Definition method_of (recv : reflect.rtype) (d : method_decl)
  : reflect.Method :=
  {| reflect.Method_Name := decl_name d;
     reflect.Method_Type :=
       {| reflect.ins := recv :: decl_params d;
          reflect.outs := decl_results d;
          reflect.IsVariadic := decl_variadic d |};
     reflect.Method_Func := fun in_ =>
       match in_ with
       | _ :: rest => decl_body d rest
       | [] => Panic "reflect: Call with too few input arguments"
       end |}.

(** [reflect.TypeOf(command).MethodByName(name)]: [None] when the
    boolean result is false. *)
Definition MethodByName (c : command) (name : string)
  : option reflect.Method :=
  method_of (TypeOf c)
    <$> find (fun d => String.eqb (decl_name d) name) (methods c).

(** [ValueOf(command)]. *)
Definition ValueOf_command (c : command) : reflect.Value :=
  reflect.Val (TypeOf c) reflect.Opaque.

Record rule : Type := {
  rule_command : command;
  rule_method : reflect.Method;
  rule_slice : bool;
  rule_name : string;
  rule_options : flag.FlagSet;
  rule_arguments : string
}.

Record application : Type := {
  app_name : string;
  app_version : string;
  rules : gmap string rule
}.

Inductive error : Type :=
| errRunMissing
| errRunString
| errRunReturnValue.

Definition Error (e : error) : string :=
  match e with
  | errRunMissing => "rule: missing Run method"
  | errRunString => "rule: parameters for Run must be strings"
  | errRunReturnValue => "rule: first return value for Run must be int"
  end.

(** [NullFlags.Flags]: a no-op on the flag set. *)
Definition NullFlags_Flags (flags : flag.FlagSet) : res flag.FlagSet :=
  Ret flags.

(** What a registration does besides changing the rule mapping. *)
Inductive event : Type :=
| made_FlagSet (name : string)
| called_Flags (on : reflect.rtype) (flags : flag.FlagSet).

(** The loop of [Rule] over the parameters before the last: [false]
    as soon as one is not of kind String. *)
Fixpoint all_strings (t : reflect.FuncType) (idx : list Z) : res bool :=
  match idx with
  | [] => Ret true
  | i :: idx' =>
      ty ← reflect.In t i;
      if decide (reflect.Type_Kind ty = reflect.String)
      then all_strings t idx'
      else Ret false
  end.

(** [final.Kind() == reflect.Slice && final.Elem().Kind() == reflect.String]. *)
Definition is_string_slice (final : reflect.rtype) : res bool :=
  if decide (reflect.Type_Kind final = reflect.Slice) then
    e ← reflect.Type_Elem final;
    Ret (bool_decide (reflect.Type_Kind e = reflect.String))
  else Ret false.

(** The check of the last parameter: [Some slice] when it passes,
    [None] when [Rule] returns [errRunString]. *)
Definition final_shape (t : reflect.FuncType) (in_ : Z) : res (option bool) :=
  if 1 <? in_ then
    final ← reflect.In t (in_ - 1);
    b ← is_string_slice final;
    if (b : bool) then Ret (Some true)
    else if decide (reflect.Type_Kind final ≠ reflect.String) then Ret None
    else Ret (Some false)
  else Ret (Some false).

(** [method.Type.NumOut() >= 1 && method.Type.Out(0).Kind() != reflect.Int]. *)
Definition bad_result (t : reflect.FuncType) : res bool :=
  if 1 <=? reflect.NumOut t then
    o ← reflect.Out t 0;
    Ret (bool_decide (reflect.Type_Kind o ≠ reflect.Int))
  else Ret false.

(** [a.Rule(command, name, arguments)]: the application afterwards,
    what happened on the way, and the error returned ([None] for
    nil). *)
Definition Rule (a : application) (command : command)
    (name arguments : string)
  : res (application * list event * option error) :=
  match MethodByName command "Run" with
  | None => Ret (a, [], Some errRunMissing)
  | Some method =>
      let t := reflect.Method_Type method in
      let in_ := reflect.NumIn t in
      strings ← all_strings t (seqZ 1 (in_ - 1 - 1));
      if negb strings then Ret (a, [], Some errRunString) else
      shape ← final_shape t in_;
      match (shape : option bool) with
      | None => Ret (a, [], Some errRunString)
      | Some slice =>
          bad ← bad_result t;
          if (bad : bool) then Ret (a, [], Some errRunReturnValue) else
          let options := flag.NewFlagSet name flag.ExitOnError in
          options' ← Flags command options;
          Ret ({| app_name := app_name a;
                  app_version := app_version a;
                  rules := <[name :=
                    {| rule_command := command;
                       rule_method := method;
                       rule_slice := slice;
                       rule_name := name;
                       rule_options := options';
                       rule_arguments := arguments |}]> (rules a) |},
               [made_FlagSet name; called_Flags (TypeOf command) options],
               None)
      end
  end.

(** [commandHelp]: its [Run] calls the usage function of the
    application it was made for. *)
Definition commandHelp : command :=
  {| TypeOf := reflect.PointerTo
                 (reflect.Defined "commandHelp" (reflect.StructLit "commandHelp"));
     methods := [ {| decl_name := "Run"; decl_params := [];
                     decl_variadic := false; decl_results := [];
                     decl_body := fun _ => Ret ([CallUsage], []) |} ];
     command_String := "Output this usage information.";
     Flags := NullFlags_Flags |}.

(** [commandVersion]: its [Run] prints the name and the version. *)
Definition commandVersion (name version : string) : command :=
  {| TypeOf := reflect.PointerTo
                 (reflect.Defined "commandVersion" (reflect.StructLit "commandVersion"));
     methods := [ {| decl_name := "Run"; decl_params := [];
                     decl_variadic := false; decl_results := [];
                     decl_body := fun _ =>
                       Ret ([Stdout (name ++ " v" ++ version ++ nl)], []) |} ];
     command_String := "Output the application version.";
     Flags := NullFlags_Flags |}.

(** [New(name, version)]: the errors of the two registrations are
    dropped, as in the source. *)
Definition New (name version : string) : res application :=
  let app := {| app_name := name; app_version := version; rules := ∅ |} in
  '(app, _, _) ← Rule app commandHelp "help" EmptyString;
  '(app, _, _) ← Rule app (commandVersion name version) "version" EmptyString;
  Ret app.

(** [r.String()]: the rule as the usage shows it. *)
Definition rule_String (r : rule) : string :=
  let command := rule_name r in
  let options := match flag.VisitAll (rule_options r) with
                 | [] => false
                 | _ :: _ => true
                 end in
  let command := if options then command ++ " [options]" else command in
  if 0 <? len_string (rule_arguments r)
  then command ++ " " ++ rule_arguments r
  else command.

(** The text shown for a flag's default value in [printUsage]. *)
Definition placeholder (DefValue : string) : string :=
  let value := DefValue in
  if String.eqb value EmptyString then "<value>"
  else if String.eqb value "false" then EmptyString
  else match strconv.Atoi value with
       | Some _ => "<n>"
       | None => dquote ++ value ++ dquote
       end.

(** The [option] text of the closure [printUsage] gives to
    [VisitAll]. *)
Definition flag_option (fl : flag.Flag) : string :=
  let value := placeholder (flag.DefValue fl) in
  let option := "-" ++ flag.Name fl in
  if negb (String.eqb value EmptyString) then option ++ "=" ++ value
  else option.

(** The closure [printUsage] gives to [VisitAll]. *)
Definition visit (w : Writer) (length : Z) (fl : flag.Flag) : proc unit :=
  let option := flag_option fl in
  spaces ← lift (gostrings.Repeat " " (length - len_string option - 2));
  Fprintf w ("    " ++ option ++ spaces ++ flag.Usage fl ++ nl).

(** The loop of [Run] that sets all but the last parameter. *)
Fixpoint set_leading (args : list string) (idx : list Z)
    (params : list reflect.Value) : res (list reflect.Value) :=
  match idx with
  | [] => Ret params
  | i :: idx' =>
      params' ← (if i <? len args + 1 then
                   a ← index args (i - 1);
                   store params i (reflect.ValueOf_string a)
                 else store params i (reflect.ValueOf_string EmptyString));
      set_leading args idx' params'
  end.

(** The loop of [Run] that appends the remaining arguments to the
    slice in the last parameter. *)
Fixpoint append_rest (args : list string) (i : Z) (js : list Z)
    (params : list reflect.Value) : res (list reflect.Value) :=
  match js with
  | [] => Ret params
  | j :: js' =>
      s ← index params i;
      a ← index args j;
      s' ← reflect.Append s (reflect.ValueOf_string a);
      params' ← store params i s';
      append_rest args i js' params'
  end.

(** [Run_params r args]: the part of [Run] that prepares the
    calling parameters from the arguments left by the flag set. *)
Definition Run_params (r : rule) (args : list string)
  : res (list reflect.Value) :=
  let params := replicate
                  (Z.to_nat (reflect.NumIn (reflect.Method_Type (rule_method r))))
                  reflect.ZeroValue in
  params ← store params 0 (ValueOf_command (rule_command r));
  params ← set_leading args (seqZ 1 (len params - 1 - 1)) params;
  let i := len params - 1 in
  if rule_slice r then
    params ← store params i
               (reflect.Zero (reflect.SliceOf reflect.TypeOf_string));
    append_rest args i (seqZ (i - 1) (len args - (i - 1))) params
  else if 1 <? i then
    if i <? len args + 1 then
      a ← index args (i - 1);
      store params i (reflect.ValueOf_string a)
    else store params i (reflect.ValueOf_string EmptyString)
  else Ret params.

(** The exit code [Run] takes from the results of the call. *)
Definition exit_code (rv : list reflect.Value) : res Z :=
  if 0 <? len rv then
    v ← index rv 0;
    reflect.Value_Int v
  else Ret 0.

Section Process.

(** The flag package's [Parse] on a set made with
    [flag.ExitOnError]: the set afterwards, holding the arguments
    that are left, or [None] when parsing ends the process. *)
Variable Parse : flag.FlagSet -> list string -> option flag.FlagSet.

(** The order in which a [for ... range] over the rule mapping
    visits the rules. *)
Variable range : gmap string rule -> list rule.

Definition parse (f : flag.FlagSet) (arguments : list string)
  : proc flag.FlagSet :=
  Proc (fun s => match Parse f arguments with
                 | Some f' => Next f' s
                 | None => Stop FlagExit s
                 end).

(** [a.getRuleLength()]. *)
Definition getRuleLength (a : application) : Z :=
  foldl (fun max rule =>
           let length := len_string (rule_String rule) in
           if max <? length then length else max)
        0 (range (rules a))
  + 3.

(** [a.printUsage(w)]. *)
Definition printUsage (a : application) (w : Writer) : proc unit :=
  let length := getRuleLength a in
  _ ← Fprintf w ("Usage: " ++ app_name a ++ " <cmd> [options] [<args>]" ++ nl);
  _ ← for_each (range (rules a)) (fun rule =>
        spaces ← lift (gostrings.Repeat " "
                         (length - len_string (rule_String rule)));
        _ ← Fprintf w ("  " ++ rule_String rule ++ spaces
                       ++ command_String (rule_command rule) ++ nl);
        for_each (flag.VisitAll (rule_options rule)) (visit w length));
  Fprintf w nl.

(** [a.usage()]. *)
Definition usage (a : application) : proc unit :=
  printUsage a os_Stderr.

(** What the body of the called method did, carried out. *)
Definition perform (a : application) (e : effect) : proc unit :=
  match e with
  | Stdout text => Fprintf os_Stdout text
  | CallUsage => usage a
  end.

(** [a.Run()], given the package-level flag set and the arguments
    of the process after the program name. Setting [flag.Usage]
    has no counterpart here: what the flag package prints before
    it ends the process is not modelled. *)
Definition Run (a : application) (CommandLine : flag.FlagSet)
    (osArgs : list string) : proc unit :=
  CommandLine ← parse CommandLine osArgs;
  if flag.NArg CommandLine <? 1 then
    _ ← usage a;
    os_Exit 1
  else
    let name := flag.Arg CommandLine 0 in
    match rules a !! name with
    | None =>
        _ ← Fprintf os_Stderr ("Error: invalid command " ++ name ++ nl);
        _ ← usage a;
        os_Exit 1
    | Some rule =>
        let args := flag.Args CommandLine in
        options ← parse (rule_options rule) (drop 1 args);
        let args := flag.Args options in
        params ← lift (Run_params rule args);
        '(effects, rv) ← lift (reflect.Call (rule_method rule) params);
        _ ← for_each effects (perform a);
        code ← lift (exit_code rv);
        os_Exit code
    end.

End Process.

End cli.

(** ** The handlers of the package's tests *)

Module cli_test.

Definition int : reflect.rtype := reflect.Basic reflect.Tint.
Definition string_ : reflect.rtype := reflect.Basic reflect.Tstring.

(** A pointer to the struct type [name]. *)
Definition pointer_to_struct (name : string) : reflect.rtype :=
  reflect.PointerTo (reflect.Defined name (reflect.StructLit name)).

(** [runFull]: [Flags] defines the integer flag number;
    [Run(arg1, arg2 string, extra []string) int] returns 2. *)
Definition runFull : cli.command :=
  {| cli.TypeOf := pointer_to_struct "runFull";
     cli.methods :=
       [ {| cli.decl_name := "Run";
            cli.decl_params := [string_; string_; reflect.SliceOf string_];
            cli.decl_variadic := false;
            cli.decl_results := [int];
            cli.decl_body := fun _ => Ret ([], [reflect.Val int (reflect.IntD 2)]) |} ];
     cli.command_String := "runFull help";
     cli.Flags := flag.Int "number" 0 "some number" |}.

(** [runErrMissing]: no [Run] method. *)
Definition runErrMissing : cli.command :=
  {| cli.TypeOf := pointer_to_struct "runErrMissing";
     cli.methods := [];
     cli.command_String := "missing run method";
     cli.Flags := cli.NullFlags_Flags |}.

(** [runErrString]: [Run(n int)]. *)
Definition runErrString : cli.command :=
  {| cli.TypeOf := pointer_to_struct "runErrString";
     cli.methods :=
       [ {| cli.decl_name := "Run";
            cli.decl_params := [int];
            cli.decl_variadic := false;
            cli.decl_results := [];
            cli.decl_body := fun _ => Ret ([], []) |} ];
     cli.command_String := "invalid param type";
     cli.Flags := cli.NullFlags_Flags |}.

(** [runErrReturnValue]: [Run() string] returns the text fail. *)
Definition runErrReturnValue : cli.command :=
  {| cli.TypeOf := pointer_to_struct "runErrReturnValue";
     cli.methods :=
       [ {| cli.decl_name := "Run";
            cli.decl_params := [];
            cli.decl_variadic := false;
            cli.decl_results := [string_];
            cli.decl_body := fun _ =>
              Ret ([], [reflect.Val string_ (reflect.Str "fail")]) |} ];
     cli.command_String := "invalid return value";
     cli.Flags := cli.NullFlags_Flags |}.

(** The application the tests start from. *)
Definition myapp : res cli.application := cli.New "myapp" "0.0.1".

(** The outcome of one more registration on [myapp]. *)
Definition register (c : cli.command) (name arguments : string)
  : res (cli.application * list cli.event * option cli.error) :=
  app ← myapp; cli.Rule app c name arguments.

(** A handler outside the tests: [Run(arg string)], which prints
    its argument. *)
Definition runOne : cli.command :=
  {| cli.TypeOf := pointer_to_struct "runOne";
     cli.methods :=
       [ {| cli.decl_name := "Run";
            cli.decl_params := [string_];
            cli.decl_variadic := false;
            cli.decl_results := [];
            cli.decl_body := fun args =>
              match args with
              | [reflect.Val _ (reflect.Str s)] => Ret ([Stdout (s ++ nl)], [])
              | _ => Panic "runOne: no argument"
              end |} ];
     cli.command_String := "print one argument";
     cli.Flags := cli.NullFlags_Flags |}.

(** A handler outside the tests: [Run(n int) string], wrong in its
    parameter and in its result. *)
Definition runErrBoth : cli.command :=
  {| cli.TypeOf := pointer_to_struct "runErrBoth";
     cli.methods :=
       [ {| cli.decl_name := "Run";
            cli.decl_params := [int];
            cli.decl_variadic := false;
            cli.decl_results := [string_];
            cli.decl_body := fun _ =>
              Ret ([], [reflect.Val string_ (reflect.Str "fail")]) |} ];
     cli.command_String := "invalid param type and return value";
     cli.Flags := cli.NullFlags_Flags |}.



(** A handler outside the tests: no parameter, no result, and a
    boolean flag whose default is true. *)
Definition runVerbose : cli.command :=
  {| cli.TypeOf := pointer_to_struct "runVerbose";
     cli.methods :=
       [ {| cli.decl_name := "Run";
            cli.decl_params := [];
            cli.decl_variadic := false;
            cli.decl_results := [];
            cli.decl_body := fun _ => Ret ([], []) |} ];
     cli.command_String := "say more";
     cli.Flags := flag.Bool "verbose" true "say more" |}.

(** An application with no rule yet. *)
Definition bare : cli.application :=
  {| cli.app_name := "myapp"; cli.app_version := "0.0.1"; cli.rules := ∅ |}.

(** A handler outside the tests: [Run(args ...string)], whose last
    parameter is a string slice written in the variadic form. *)
Definition runVariadic : cli.command :=
  {| cli.TypeOf := pointer_to_struct "runVariadic";
     cli.methods :=
       [ {| cli.decl_name := "Run";
            cli.decl_params := [reflect.SliceOf string_];
            cli.decl_variadic := true;
            cli.decl_results := [];
            cli.decl_body := fun _ => Ret ([], []) |} ];
     cli.command_String := "take all arguments";
     cli.Flags := cli.NullFlags_Flags |}.


(** A handler outside the tests: [Run(key, value string)], which
    prints the two, and the rule that registering it under the name
    pair makes. *)
Definition runPair : cli.command :=
  {| cli.TypeOf := pointer_to_struct "runPair";
     cli.methods :=
       [ {| cli.decl_name := "Run";
            cli.decl_params := [string_; string_];
            cli.decl_variadic := false;
            cli.decl_results := [];
            cli.decl_body := fun args =>
              match args with
              | [reflect.Val _ (reflect.Str k); reflect.Val _ (reflect.Str v)] =>
                  Ret ([Stdout (k ++ " => " ++ v ++ nl)], [])
              | _ => Panic "runPair: two strings expected"
              end |} ];
     cli.command_String := "print a pair";
     cli.Flags := cli.NullFlags_Flags |}.

Definition pair_rule : cli.rule :=
  {| cli.rule_command := runPair;
     cli.rule_method :=
       cli.method_of (cli.TypeOf runPair)
         (hd {| cli.decl_name := EmptyString; cli.decl_params := [];
                cli.decl_variadic := false; cli.decl_results := [];
                cli.decl_body := fun _ => Ret ([], []) |}
             (cli.methods runPair));
     cli.rule_slice := false;
     cli.rule_name := "pair";
     cli.rule_options := flag.NewFlagSet "pair" flag.ExitOnError;
     cli.rule_arguments := "<key> <value>" |}.

Definition pair_app : cli.application :=
  {| cli.app_name := "myapp"; cli.app_version := "0.0.1";
     cli.rules := <["pair" := pair_rule]> ∅ |}.

(** A handler outside the tests: [Run(key Key, value string)] where
    [Key] is declared as [type Key string], and the rule that
    registering it under the name named makes. *)
Definition Key : reflect.rtype := reflect.Defined "Key" string_.

Definition runNamed : cli.command :=
  {| cli.TypeOf := pointer_to_struct "runNamed";
     cli.methods :=
       [ {| cli.decl_name := "Run";
            cli.decl_params := [Key; string_];
            cli.decl_variadic := false;
            cli.decl_results := [];
            cli.decl_body := fun _ => Ret ([], []) |} ];
     cli.command_String := "take a key";
     cli.Flags := cli.NullFlags_Flags |}.

Definition named_rule : cli.rule :=
  {| cli.rule_command := runNamed;
     cli.rule_method :=
       cli.method_of (cli.TypeOf runNamed)
         (hd {| cli.decl_name := EmptyString; cli.decl_params := [];
                cli.decl_variadic := false; cli.decl_results := [];
                cli.decl_body := fun _ => Ret ([], []) |}
             (cli.methods runNamed));
     cli.rule_slice := false;
     cli.rule_name := "named";
     cli.rule_options := flag.NewFlagSet "named" flag.ExitOnError;
     cli.rule_arguments := "<key> <value>" |}.

Definition named_app : cli.application :=
  {| cli.app_name := "myapp"; cli.app_version := "0.0.1";
     cli.rules := <["named" := named_rule]> ∅ |}.

(** The rule that registering [runFull] under the name full makes,
    and the application that holds it alone. *)
Definition full_rule : cli.rule :=
  {| cli.rule_command := runFull;
     cli.rule_method :=
       {| reflect.Method_Name := "Run";
          reflect.Method_Type :=
            {| reflect.ins := [pointer_to_struct "runFull"; string_; string_;
                               reflect.SliceOf string_];
               reflect.outs := [int];
               reflect.IsVariadic := false |};
          reflect.Method_Func := fun in_ =>
            match in_ with
            | _ :: _ => Ret ([], [reflect.Val int (reflect.IntD 2)])
            | [] => Panic "reflect: Call with too few input arguments"
            end |};
     cli.rule_slice := true;
     cli.rule_name := "full";
     cli.rule_options :=
       {| flag.name := "full"; flag.errorHandling := flag.ExitOnError;
          flag.formal := [ {| flag.Name := "number";
                              flag.Usage := "some number";
                              flag.Value_ := flag.intValue 0;
                              flag.DefValue := "0" |} ];
          flag.args := [] |};
     cli.rule_arguments := "<arg1> <arg2> [<extra>]" |}.

Definition full_app : cli.application :=
  {| cli.app_name := "myapp"; cli.app_version := "0.0.1";
     cli.rules := <["full" := full_rule]> ∅ |}.

(** What [Parse] does with arguments that hold no flag: all of them
    are left. An argument list that starts with a dash is outside
    this instance. *)
Definition Parse_plain (f : flag.FlagSet) (arguments : list string)
  : option flag.FlagSet :=
  match arguments with
  | String "-" _ :: _ => None
  | _ => Some {| flag.name := flag.name f;
                 flag.errorHandling := flag.errorHandling f;
                 flag.formal := flag.formal f;
                 flag.args := arguments |}
  end.

(** One order of visiting the rules: that of the keys in the map. *)
Definition range_keys (m : gmap string cli.rule) : list cli.rule :=
  (map_to_list m).*2.

Definition CommandLine : flag.FlagSet :=
  flag.NewFlagSet "myapp" flag.ExitOnError.

(** The process [myapp] with one more rule, run on [osArgs]. *)
Definition run_with (c : cli.command) (name arguments : string)
    (osArgs : list string) : res (step unit) :=
  '(app, _, _) ← register c name arguments;
  Ret (run (cli.Run Parse_plain range_keys app CommandLine osArgs) no_streams).

End cli_test.

(** ** Vocabulary of the properties *)

Import cli.

(** The parameters of a method type pass the checks of [Rule]: every
    parameter before the last is of kind String, and the last one,
    when there is one, is of kind String or a slice whose elements
    are of kind String. *)
Definition parameters_accepted (t : reflect.FuncType) : Prop :=
  (forall i ty, 1 <= i < reflect.NumIn t - 1 ->
                reflect.In t i = Ret ty ->
                reflect.Type_Kind ty = reflect.String)
  /\ (forall final, 1 < reflect.NumIn t ->
                    reflect.In t (reflect.NumIn t - 1) = Ret final ->
                    reflect.Type_Kind final = reflect.String
                    \/ is_string_slice final = Ret true).

(** A rule that some successful registration stored. *)
Definition registered (r : rule) : Prop :=
  exists a c name arguments a' evs,
    Rule a c name arguments = Ret (a', evs, None)
    /\ rules a' !! name = Some r.

(** A value as a Go function returns it for a result of type [t]: it
    has that type, and it holds an integer exactly when the type is
    of a signed integer kind. *)
Definition has_type (v : reflect.Value) (t : reflect.rtype) : Prop :=
  match v with
  | reflect.ZeroValue => False
  | reflect.Val t' d =>
      t' = t /\ match d with
                | reflect.IntD _ => reflect.is_int_Kind (reflect.Type_Kind t) = true
                | reflect.Str _ => reflect.Type_Kind t = reflect.String
                | reflect.Strs _ => reflect.Type_Kind t = reflect.Slice
                | reflect.Opaque =>
                    reflect.is_int_Kind (reflect.Type_Kind t) = false
                    /\ reflect.Type_Kind t <> reflect.String
                end
  end.

(** The text a stream holds after [text] is written on [w]. *)
Definition written (w : Writer) (text : string) (s : streams) : streams :=
  match w with
  | os_Stdout => {| stdout := stdout s ++ text; stderr := stderr s |}
  | os_Stderr => {| stdout := stdout s; stderr := stderr s ++ text |}
  end.

(** Token [i] of the argument list, counted from 0, or the empty
    string when there is none. *)
Definition token (args : list string) (i : Z) : string :=
  default EmptyString (args !! Z.to_nat i).

(** The type of the slice [Run] builds for a last parameter that
    takes the remaining arguments. *)
Definition strings_type : reflect.rtype := reflect.SliceOf reflect.TypeOf_string.

(** What the last parameter holds after the binding, by the shape of
    the rule: the remaining tokens for a slice, one token or the
    empty string for a string that follows another parameter, and no
    value at all for a string that is the only parameter. *)
Definition final_param (slice : bool) (n : Z) (args : list string)
  : reflect.Value :=
  if slice then
    reflect.Val strings_type (reflect.Strs (drop (Z.to_nat (n - 2)) args))
  else if 1 <? n - 1 then reflect.ValueOf_string (token args (n - 2))
  else reflect.ZeroValue.

(** The first [n] of the tokens, with empty strings where the tokens
    run out. *)
Definition padded (n : nat) (args : list string) : list string :=
  take n (args ++ replicate n EmptyString).

(** Every key of the rule mapping leads to a rule of that name which
    a successful registration made. *)
Definition names_agree (a : application) : Prop :=
  forall k r, rules a !! k = Some r -> rule_name r = k /\ registered r.

(** Every flag line of the usage fits the column that
    [getRuleLength] computes. *)
Definition flags_fit (range : gmap string rule -> list rule)
    (a : application) : Prop :=
  forall r fl, r ∈ range (rules a) ->
               fl ∈ flag.VisitAll (rule_options r) ->
               len_string (flag_option fl) + 2 <= getRuleLength range a.

(** The end of [Run], from the preparation of the calling parameters
    to the exit, for the rule found and the arguments its flag set
    left. *)
Definition dispatch (range : gmap string rule -> list rule)
    (a : application) (r : rule) (args : list string) : proc unit :=
  params ← lift (Run_params r args);
  '(effects, rv) ← lift (reflect.Call (rule_method r) params);
  _ ← for_each effects (perform range a);
  code ← lift (exit_code rv);
  os_Exit code.

(** The method type of a handler whose Run takes [N] strings and
    then one more parameter of type [final]. *)
Definition strings_then (N : nat) (final : reflect.rtype)
  : list reflect.rtype :=
  replicate N reflect.TypeOf_string ++ [final].

(** The rule a registration stores, and the application with a rule
    stored under a name. *)
Definition stored_rule (c : command) (method : reflect.Method) (slice : bool)
    (name : string) (options : flag.FlagSet) (arguments : string) : rule :=
  {| rule_command := c; rule_method := method; rule_slice := slice;
     rule_name := name; rule_options := options;
     rule_arguments := arguments |}.

Definition with_rule (a : application) (name : string) (r : rule)
  : application :=
  {| app_name := app_name a; app_version := app_version a;
     rules := <[name := r]> (rules a) |}.

(** ** Reflection: totality of the look-ups [Rule] makes *)

Lemma bind_Ret {A B : Type} (a : A) (f : A -> res B) : (Ret a ≫= f) = f a.
Proof. reflexivity. Qed.


Lemma index_Ret {A : Type} (l : list A) (i : Z) :
  0 <= i < len l -> exists x, index l i = Ret x /\ l !! Z.to_nat i = Some x.
Proof.
  intros Hi. unfold index, len in *.
  destruct (Z.ltb_spec i 0); [lia|].
  destruct (Z.leb_spec (Z.of_nat (length l)) i); [lia|]. simpl.
  destruct (lookup_lt_is_Some_2 l (Z.to_nat i)) as [x Hx]; [lia|].
  rewrite Hx. eauto.
Qed.

Lemma index_Ret_inv {A : Type} (l : list A) (i : Z) (x : A) :
  index l i = Ret x -> 0 <= i < len l /\ l !! Z.to_nat i = Some x.
Proof.
  unfold index, len. intros H.
  destruct (Z.ltb_spec i 0); [discriminate|].
  destruct (Z.leb_spec (Z.of_nat (length l)) i); [discriminate|]. simpl in H.
  destruct (l !! Z.to_nat i) eqn:E; [|discriminate].
  injection H as ->. split; [lia|reflexivity].
Qed.

Lemma In_Ret (t : reflect.FuncType) (i : Z) :
  0 <= i < reflect.NumIn t ->
  exists ty, reflect.In t i = Ret ty /\ reflect.ins t !! Z.to_nat i = Some ty.
Proof.
  intros Hi. unfold reflect.In.
  destruct (Z.ltb_spec i 0); [lia|].
  destruct (Z.leb_spec (reflect.NumIn t) i); [lia|]. simpl.
  apply index_Ret. exact Hi.
Qed.

Lemma In_Ret_inv (t : reflect.FuncType) (i : Z) (ty : reflect.rtype) :
  reflect.In t i = Ret ty ->
  0 <= i < reflect.NumIn t /\ reflect.ins t !! Z.to_nat i = Some ty.
Proof.
  unfold reflect.In. intros H.
  destruct (Z.ltb_spec i 0); [discriminate|].
  destruct (Z.leb_spec (reflect.NumIn t) i); [discriminate|]. simpl in H.
  apply index_Ret_inv in H. exact H.
Qed.

Lemma Elem_of_Slice (t : reflect.rtype) :
  reflect.Type_Kind t = reflect.Slice -> exists e, reflect.Type_Elem t = Ret e.
Proof.
  induction t as [b| | | | | | | | |name u IH]; simpl; intros H;
    try discriminate; eauto.
  destruct b; discriminate.
Qed.

Lemma is_string_slice_total (final : reflect.rtype) :
  exists b, is_string_slice final = Ret b.
Proof.
  unfold is_string_slice.
  destruct (decide (reflect.Type_Kind final = reflect.Slice)) as [H|H]; [|eauto].
  destruct (Elem_of_Slice final H) as [e ->]. rewrite bind_Ret. eauto.
Qed.

Lemma all_strings_spec (t : reflect.FuncType) (idx : list Z) :
  (forall i, i ∈ idx -> 0 <= i < reflect.NumIn t) ->
  (all_strings t idx = Ret true
   /\ forall i ty, i ∈ idx -> reflect.In t i = Ret ty ->
                   reflect.Type_Kind ty = reflect.String)
  \/ (all_strings t idx = Ret false
      /\ exists i ty, i ∈ idx /\ reflect.In t i = Ret ty
                      /\ reflect.Type_Kind ty <> reflect.String).
Proof.
  induction idx as [|i idx IH]; intros Hr; simpl.
  - left. split; [reflexivity|]. intros i ty Hi. inversion Hi.
  - destruct (In_Ret t i) as (ty & Hty & _); [apply Hr; left|].
    rewrite Hty, bind_Ret.
    destruct (decide (reflect.Type_Kind ty = reflect.String)) as [Hk|Hk].
    + destruct IH as [[IH1 IH2]|[IH1 (j & tj & Hj & Htj & Hkj)]].
      * intros j Hj. apply Hr. right. exact Hj.
      * left. split; [exact IH1|]. intros j tj Hj Htj.
        apply elem_of_cons in Hj as [->|Hj]; [congruence|eauto].
      * right. split; [exact IH1|]. exists j, tj. split; [right|]; auto.
    + right. split; [reflexivity|]. exists i, ty. split; [left|]; auto.
Qed.

Lemma leading_in_range (t : reflect.FuncType) (i : Z) :
  i ∈ seqZ 1 (reflect.NumIn t - 1 - 1) <-> 1 <= i < reflect.NumIn t - 1.
Proof. rewrite elem_of_seqZ. lia. Qed.

Lemma all_strings_leading (t : reflect.FuncType) :
  (all_strings t (seqZ 1 (reflect.NumIn t - 1 - 1)) = Ret true
   /\ forall i ty, 1 <= i < reflect.NumIn t - 1 -> reflect.In t i = Ret ty ->
                   reflect.Type_Kind ty = reflect.String)
  \/ (all_strings t (seqZ 1 (reflect.NumIn t - 1 - 1)) = Ret false
      /\ exists i ty, 1 <= i < reflect.NumIn t - 1 /\ reflect.In t i = Ret ty
                      /\ reflect.Type_Kind ty <> reflect.String).
Proof.
  destruct (all_strings_spec t (seqZ 1 (reflect.NumIn t - 1 - 1)))
    as [[H1 H2]|[H1 (i & ty & Hi & H2)]].
  - intros i Hi. apply leading_in_range in Hi. lia.
  - left. split; [exact H1|]. intros i ty Hi. apply H2, leading_in_range, Hi.
  - right. split; [exact H1|]. exists i, ty.
    split; [apply leading_in_range, Hi|exact H2].
Qed.

Lemma final_shape_spec (t : reflect.FuncType) :
  (reflect.NumIn t <= 1 /\ final_shape t (reflect.NumIn t) = Ret (Some false))
  \/ exists final b,
       1 < reflect.NumIn t
       /\ reflect.In t (reflect.NumIn t - 1) = Ret final
       /\ is_string_slice final = Ret b
       /\ final_shape t (reflect.NumIn t)
          = Ret (if b then Some true
                 else if decide (reflect.Type_Kind final ≠ reflect.String)
                      then None else Some false).
Proof.
  unfold final_shape.
  destruct (Z.ltb_spec 1 (reflect.NumIn t)) as [H|H]; [right|left; split; [lia|reflexivity]].
  destruct (In_Ret t (reflect.NumIn t - 1)) as (final & Hf & _); [lia|].
  destruct (is_string_slice_total final) as [b Hb].
  exists final, b. rewrite Hf, bind_Ret, Hb, bind_Ret.
  repeat split; auto. destruct b; [reflexivity|].
  destruct (decide (reflect.Type_Kind final ≠ reflect.String)); reflexivity.
Qed.

Lemma bad_result_spec (t : reflect.FuncType) :
  (reflect.outs t = [] /\ bad_result t = Ret false)
  \/ exists o rest,
       reflect.outs t = o :: rest
       /\ reflect.Out t 0 = Ret o
       /\ bad_result t = Ret (bool_decide (reflect.Type_Kind o ≠ reflect.Int)).
Proof.
  unfold bad_result, reflect.Out, reflect.NumOut, len, index.
  destruct (reflect.outs t) as [|o rest]; [left; split; reflexivity|right].
  exists o, rest. split; [reflexivity|].
  destruct (Z.leb_spec 1 (Z.of_nat (length (o :: rest)))) as [H|H];
    [|simpl in H; lia].
  destruct (Z.leb_spec (Z.of_nat (length (o :: rest))) 0) as [H'|H'];
    [simpl in H'; lia|].
  simpl. split; reflexivity.
Qed.

(** ** Registration *)

(** Case analysis on the steps of a computation in [res], from the
    outside in. *)
Ltac res_step H :=
  lazymatch type of H with
  | mbind _ (Ret _) = _ => rewrite bind_Ret in H
  | mbind _ (Panic _) = _ => discriminate H
  | mbind _ ?m = _ => destruct m eqn:?
  | (if ?b then _ else _) = _ => destruct b eqn:?
  | match ?x with _ => _ end = _ => destruct x eqn:?
  end.

Ltac res_cases H := repeat res_step H; try discriminate H.

Lemma MethodByName_None (c : command) (name : string) :
  (forall d, d ∈ methods c -> decl_name d <> name) ->
  MethodByName c name = None.
Proof.
  intros H. unfold MethodByName.
  destruct (find _ (methods c)) as [d|] eqn:E; [|reflexivity].
  apply find_some in E as [Hin Heq].
  apply String.eqb_eq in Heq. apply list_elem_of_In in Hin.
  destruct (H d Hin Heq).
Qed.

Lemma MethodByName_Some (c : command) (name : string) (m : reflect.Method) :
  MethodByName c name = Some m ->
  exists d, d ∈ methods c /\ decl_name d = name /\ m = method_of (TypeOf c) d.
Proof.
  unfold MethodByName. intros H.
  destruct (find _ (methods c)) as [d|] eqn:E; [|discriminate].
  injection H as <-. apply find_some in E as [Hin Heq].
  apply String.eqb_eq in Heq. apply list_elem_of_In in Hin. eauto.
Qed.

Lemma method_has_receiver (c : command) (name : string) (m : reflect.Method) :
  MethodByName c name = Some m -> 1 <= reflect.NumIn (reflect.Method_Type m).
Proof.
  intros H. apply MethodByName_Some in H as (d & _ & _ & ->).
  unfold reflect.NumIn, len. simpl. lia.
Qed.

(** A successful registration, step by step. *)
Lemma Rule_success (a a' : application) (c : command) (name arguments : string)
    (evs : list event) :
  Rule a c name arguments = Ret (a', evs, None) ->
  exists method slice options,
    MethodByName c "Run" = Some method
    /\ all_strings (reflect.Method_Type method)
         (seqZ 1 (reflect.NumIn (reflect.Method_Type method) - 1 - 1)) = Ret true
    /\ final_shape (reflect.Method_Type method)
         (reflect.NumIn (reflect.Method_Type method)) = Ret (Some slice)
    /\ bad_result (reflect.Method_Type method) = Ret false
    /\ Flags c (flag.NewFlagSet name flag.ExitOnError) = Ret options
    /\ evs = [made_FlagSet name;
              called_Flags (TypeOf c) (flag.NewFlagSet name flag.ExitOnError)]
    /\ a' = {| app_name := app_name a;
               app_version := app_version a;
               rules := <[name := {| rule_command := c;
                                      rule_method := method;
                                      rule_slice := slice;
                                      rule_name := name;
                                      rule_options := options;
                                      rule_arguments := arguments |}]> (rules a) |}.
Proof.
  unfold Rule. intros H.
  destruct (MethodByName c "Run") as [method|]; [|discriminate].
  res_cases H. simpl in *. injection H as <- <-.
  destruct a0; [|discriminate].
  exists method, b, a3. repeat split; auto.
Qed.

(** The converse: the steps that make a registration succeed. *)
Lemma Rule_succeeds (a : application) (c : command) (name arguments : string)
    (method : reflect.Method) (slice : bool) (options : flag.FlagSet) :
  MethodByName c "Run" = Some method ->
  all_strings (reflect.Method_Type method)
    (seqZ 1 (reflect.NumIn (reflect.Method_Type method) - 1 - 1)) = Ret true ->
  final_shape (reflect.Method_Type method)
    (reflect.NumIn (reflect.Method_Type method)) = Ret (Some slice) ->
  bad_result (reflect.Method_Type method) = Ret false ->
  Flags c (flag.NewFlagSet name flag.ExitOnError) = Ret options ->
  exists a' evs, Rule a c name arguments = Ret (a', evs, None).
Proof.
  intros Hm Hs Hf Hb Ho. unfold Rule.
  rewrite Hm, Hs, bind_Ret. simpl. rewrite Hf, bind_Ret, Hb, bind_Ret, Ho, bind_Ret.
  eauto.
Qed.

(** C2. A handler whose type declares no method named Run is refused
    with [errRunMissing], whatever else is true of it: its other
    methods, its flags, the name and the application play no part,
    the rule mapping is as before, and nothing else has happened. *)
Theorem Rule_missing_Run (a : application) (c : command)
    (name arguments : string) :
  (forall d, d ∈ methods c -> decl_name d <> "Run") ->
  Rule a c name arguments = Ret (a, [], Some errRunMissing).
Proof.
  intros H. unfold Rule. rewrite (MethodByName_None c "Run" H). reflexivity.
Qed.

Lemma Rule_missing_Run_witness :
  Rule cli_test.bare cli_test.runErrMissing "missing" EmptyString
  = Ret (cli_test.bare, [], Some errRunMissing).
Proof.
  apply (Rule_missing_Run _ cli_test.runErrMissing).
  intros d Hd. simpl in Hd. inversion Hd.
Defined.


Lemma Rule_refusal (a a' : application) (c : command)
    (name arguments : string) (evs : list event) (e : error) :
  Rule a c name arguments = Ret (a', evs, Some e) ->
  a' = a /\ evs = [].
Proof.
  unfold Rule. intros H.
  destruct (MethodByName c "Run") as [method|].
  - res_cases H; simpl in *; injection H as <- <- _; split; reflexivity.
  - injection H as <- <- _. split; reflexivity.
Qed.

(** C10. A registration that returns an error leaves the application
    as it was, rule mapping included, and has no effect on the way:
    no flag set was made and [Flags] was not called. *)
Theorem Rule_error_changes_nothing (a a' : application) (c : command)
    (name arguments : string) (evs : list event) (e : error) :
  Rule a c name arguments = Ret (a', evs, Some e) ->
  a' = a /\ rules a' = rules a /\ evs = [].
Proof.
  intros H. apply Rule_refusal in H as [-> ->]. repeat split.
Qed.


Lemma Rule_error_changes_nothing_witness :
  Rule cli_test.bare cli_test.runErrReturnValue "return" EmptyString
  = Ret (cli_test.bare, [], Some errRunReturnValue)
  /\ cli_test.bare = cli_test.bare
  /\ rules cli_test.bare = rules cli_test.bare
  /\ @nil event = [].
Proof.
  split; [reflexivity|].
  apply (Rule_error_changes_nothing cli_test.bare cli_test.bare
           cli_test.runErrReturnValue "return" EmptyString [] errRunReturnValue).
  reflexivity.
Defined.

Lemma parameters_accepted_checks (t : reflect.FuncType) :
  parameters_accepted t ->
  all_strings t (seqZ 1 (reflect.NumIn t - 1 - 1)) = Ret true
  /\ exists slice, final_shape t (reflect.NumIn t) = Ret (Some slice).
Proof.
  intros [Hlead Hfinal]. split.
  - destruct (all_strings_leading t) as [[H _]|[_ (i & ty & Hi & Hty & Hk)]];
      [exact H|]. destruct (Hk (Hlead i ty Hi Hty)).
  - destruct (final_shape_spec t) as [[_ H]|(final & b & Hn & Hf & Hb & H)];
      [eauto|]. rewrite H. destruct b; [eauto|].
    destruct (decide (reflect.Type_Kind final ≠ reflect.String)) as [Hk|Hk];
      [|eauto].
    destruct (Hfinal final Hn Hf) as [Hs|Hs]; [destruct (Hk Hs)|congruence].
Qed.



(** C5, as stated, fails: the result is looked at after the
    parameters. [runErrBoth] returns a string first, and its
    registration fails with [errRunString], not with
    [errRunReturnValue]. *)
Lemma Rule_first_result_not_int_counterexample :
  exists method o,
    MethodByName cli_test.runErrBoth "Run" = Some method
    /\ reflect.Out (reflect.Method_Type method) 0 = Ret o
    /\ reflect.Type_Kind o <> reflect.Int
    /\ Rule cli_test.bare cli_test.runErrBoth "both" EmptyString
       = Ret (cli_test.bare, [], Some errRunString)
    /\ Rule cli_test.bare cli_test.runErrBoth "both" EmptyString
       <> Ret (cli_test.bare, [], Some errRunReturnValue).
Proof.
  eexists. exists cli_test.string_.
  split; [reflexivity|]. split; [reflexivity|].
  split; [discriminate|]. split; [reflexivity|discriminate].
Qed.

(** C5, amended. For a handler whose Run passes the checks on its
    parameters: a first result that is not of kind Int makes the
    registration fail with [errRunReturnValue]; a first result of
    kind Int lets it succeed whatever the results after it are. *)
Theorem Rule_first_result (a : application) (c : command)
    (name arguments : string) (method : reflect.Method) (o : reflect.rtype) :
  MethodByName c "Run" = Some method ->
  parameters_accepted (reflect.Method_Type method) ->
  reflect.Out (reflect.Method_Type method) 0 = Ret o ->
  (reflect.Type_Kind o <> reflect.Int ->
   Rule a c name arguments = Ret (a, [], Some errRunReturnValue))
  /\ (reflect.Type_Kind o = reflect.Int ->
      forall options,
        Flags c (flag.NewFlagSet name flag.ExitOnError) = Ret options ->
        exists a' evs, Rule a c name arguments = Ret (a', evs, None)).
Proof.
  intros Hm Hp Ho.
  destruct (parameters_accepted_checks _ Hp) as [Hall [slice Hshape]].
  destruct (bad_result_spec (reflect.Method_Type method))
    as [[Hnil _]|(o' & rest & _ & Ho' & Hbad)].
  { unfold reflect.Out, reflect.NumOut in Ho. rewrite Hnil in Ho. discriminate. }
  assert (o' = o) as -> by congruence.
  split.
  - intros Hk. unfold Rule.
    rewrite Hm, Hall, bind_Ret. simpl. rewrite Hshape, bind_Ret, Hbad, bind_Ret.
    rewrite bool_decide_true by exact Hk. reflexivity.
  - intros Hk options Hflags.
    apply (Rule_succeeds a c name arguments method slice options); auto.
    rewrite Hbad. rewrite bool_decide_false; [reflexivity|]. intros H; apply H, Hk.
Qed.

Lemma Rule_first_result_witness :
  Rule cli_test.bare cli_test.runErrReturnValue "return" EmptyString
  = Ret (cli_test.bare, [], Some errRunReturnValue).
Proof.
  eapply (Rule_first_result cli_test.bare cli_test.runErrReturnValue
            "return" EmptyString _ cli_test.string_).
  - reflexivity.
  - split.
    + intros i ty Hi. vm_compute in Hi. destruct Hi as [H1 H2].
      destruct i; try discriminate; destruct (H1 eq_refl).
    + intros final Hn. vm_compute in Hn. discriminate.
  - reflexivity.
  - discriminate.
Defined.

(** C8. After two successful registrations under one name, the name
    leads to the rule made from the second handler: its command, its
    Run method, its name, its usage arguments and the flag set its
    [Flags] filled. And a registration under a name, whatever its
    outcome, leaves what is stored under every other name as it
    was. *)
Theorem Rule_last_registration_wins (a a1 a2 : application)
    (h1 h2 : command) (n u1 u2 : string) (e1 e2 : list event) :
  Rule a h1 n u1 = Ret (a1, e1, None) ->
  Rule a1 h2 n u2 = Ret (a2, e2, None) ->
  (exists r, rules a2 !! n = Some r
             /\ rule_command r = h2
             /\ MethodByName h2 "Run" = Some (rule_method r)
             /\ final_shape (reflect.Method_Type (rule_method r))
                  (reflect.NumIn (reflect.Method_Type (rule_method r)))
                = Ret (Some (rule_slice r))
             /\ rule_name r = n
             /\ Flags h2 (flag.NewFlagSet n flag.ExitOnError)
                = Ret (rule_options r)
             /\ rule_arguments r = u2)
  /\ (forall b h m u b' evs err n',
        Rule b h m u = Ret (b', evs, err) ->
        n' <> m ->
        rules b' !! n' = rules b !! n').
Proof.
  intros _ H2. split.
  - apply Rule_success in H2
      as (method & slice & options & Hm & _ & Hshape & _ & Hflags & _ & ->).
    eexists. split; [apply lookup_insert_eq|]. simpl. repeat split; auto.
  - intros b h m u b' evs [e|] n' HR Hne.
    + apply Rule_refusal in HR as [-> _]. reflexivity.
    + apply Rule_success in HR as (? & ? & ? & _ & _ & _ & _ & _ & _ & ->).
      simpl. apply lookup_insert_ne. congruence.
Qed.

Lemma Rule_last_registration_wins_witness :
  exists a1 a2 e1 e2,
    Rule cli_test.bare cli_test.runFull "cmd" "<arg1> <arg2> [<extra>]"
    = Ret (a1, e1, None)
    /\ Rule a1 cli_test.runOne "cmd" "<arg>" = Ret (a2, e2, None)
    /\ exists r, rules a2 !! "cmd" = Some r
                 /\ rule_command r = cli_test.runOne
                 /\ rule_arguments r = "<arg>".
Proof.
  eexists _, _, _, _. split; [reflexivity|]. split; [reflexivity|].
  destruct (Rule_last_registration_wins cli_test.bare _ _
              cli_test.runFull cli_test.runOne "cmd"
              "<arg1> <arg2> [<extra>]" "<arg>" _ _ eq_refl eq_refl)
    as [(r & Hr & Hc & _ & _ & _ & _ & Hu) _].
  exists r. auto.
Defined.

(** ** Dispatch: the calling parameters *)

Lemma store_Ret {A : Type} (l : list A) (i : Z) (x : A) :
  0 <= i < len l -> store l i x = Ret (<[Z.to_nat i := x]> l).
Proof.
  intros Hi. unfold store, len in *.
  destruct (Z.ltb_spec i 0); [lia|].
  destruct (Z.leb_spec (Z.of_nat (length l)) i); [lia|]. reflexivity.
Qed.

Lemma len_insert {A : Type} (l : list A) (i : nat) (x : A) :
  len (<[i := x]> l) = len l.
Proof. unfold len. rewrite length_insert. reflexivity. Qed.

Lemma index_token (args : list string) (i : Z) :
  1 <= i -> i < len args + 1 -> index args (i - 1) = Ret (token args (i - 1)).
Proof.
  intros H1 H2. destruct (index_Ret args (i - 1)) as (x & Hx & Hl); [lia|].
  rewrite Hx. unfold token. rewrite Hl. reflexivity.
Qed.

Lemma token_beyond (args : list string) (i : Z) :
  1 <= i -> len args + 1 <= i -> token args (i - 1) = EmptyString.
Proof.
  intros H1 H2. unfold token, len in *.
  rewrite lookup_ge_None_2 by lia. reflexivity.
Qed.

(** The first loop of the binding writes, at every index it visits,
    the token before that index or the empty string, and nothing
    else. *)
Lemma set_leading_spec (args : list string) (idx : list Z) :
  forall params,
    (forall i, i ∈ idx -> 1 <= i < len params) ->
    exists params',
      set_leading args idx params = Ret params'
      /\ len params' = len params
      /\ forall j : nat,
           params' !! j
           = if decide (Z.of_nat j ∈ idx)
             then Some (reflect.ValueOf_string (token args (Z.of_nat j - 1)))
             else params !! j.
Proof.
  induction idx as [|i idx IH]; intros params Hr; simpl.
  - exists params. repeat split.
  - assert (1 <= i < len params) as Hi by (apply Hr; left).
    assert (exists v, (if i <? len args + 1
                       then a ← index args (i - 1);
                            store params i (reflect.ValueOf_string a)
                       else store params i (reflect.ValueOf_string EmptyString))
                      = Ret (<[Z.to_nat i := v]> params)
                      /\ v = reflect.ValueOf_string (token args (i - 1)))
      as (v & -> & Hv).
    { destruct (Z.ltb_spec i (len args + 1)).
      - rewrite index_token, bind_Ret by lia. rewrite store_Ret by lia. eauto.
      - rewrite store_Ret by lia. rewrite token_beyond by lia. eauto. }
    rewrite bind_Ret.
    destruct (IH (<[Z.to_nat i := v]> params)) as (params' & -> & Hlen & Hlook).
    { intros k Hk. rewrite len_insert. apply Hr. right. exact Hk. }
    exists params'. split; [reflexivity|]. split; [rewrite Hlen; apply len_insert|].
    intros j. rewrite Hlook.
    destruct (decide (Z.of_nat j ∈ idx)) as [Hj|Hj].
    + rewrite decide_True by (right; exact Hj). reflexivity.
    + destruct (decide (Z.of_nat j = i)) as [<-|Hne].
      * rewrite decide_True by left. rewrite Nat2Z.id.
        rewrite list_lookup_insert_eq by (unfold len in Hi; lia).
        rewrite Hv. reflexivity.
      * rewrite decide_False.
        -- apply list_lookup_insert_ne. lia.
        -- intros H. apply elem_of_cons in H as [H|H]; [lia|tauto].
Qed.

Lemma Append_string (l : list string) (a : string) :
  reflect.Append (reflect.Val strings_type (reflect.Strs l))
                 (reflect.ValueOf_string a)
  = Ret (reflect.Val strings_type (reflect.Strs (l ++ [a]))).
Proof. reflexivity. Qed.

(** The second loop appends the tokens at the indices it visits, in
    the order of the visits, to the slice in the last parameter. *)
Lemma append_rest_spec (args : list string) (i : Z) (js : list Z) :
  forall (l : list string) (params : list reflect.Value),
    0 <= i < len params ->
    params !! Z.to_nat i = Some (reflect.Val strings_type (reflect.Strs l)) ->
    (forall j, j ∈ js -> 0 <= j < len args) ->
    append_rest args i js params
    = Ret (<[Z.to_nat i := reflect.Val strings_type
                              (reflect.Strs (l ++ (token args <$> js)))]> params).
Proof.
  induction js as [|j js IH]; intros l params Hi Hl Hr; simpl.
  - rewrite app_nil_r, list_insert_id by exact Hl. reflexivity.
  - destruct (index_Ret params i Hi) as (s & -> & Hs).
    rewrite bind_Ret. rewrite Hl in Hs. injection Hs as <-.
    destruct (index_Ret args j) as (a & -> & Ha); [apply Hr; left|].
    rewrite bind_Ret, Append_string, bind_Ret, store_Ret, bind_Ret by exact Hi.
    rewrite (IH (l ++ [a])%list).
    + rewrite list_insert_insert_eq. unfold token at 2. rewrite Ha. simpl.
      rewrite <- app_assoc. reflexivity.
    + rewrite len_insert. exact Hi.
    + apply list_lookup_insert_eq. unfold len in Hi. lia.
    + intros k Hk. apply Hr. right. exact Hk.
Qed.

Lemma tokens_from (args : list string) (n : nat) :
  token args <$> seqZ (Z.of_nat n) (len args - Z.of_nat n) = drop n args.
Proof.
  apply list_eq. intros k. rewrite list_lookup_fmap, lookup_drop.
  unfold len.
  destruct (decide (n + k < length args)%nat) as [H|H].
  - rewrite lookup_seqZ_lt by lia. simpl. unfold token.
    replace (Z.to_nat (Z.of_nat n + Z.of_nat k)) with (n + k)%nat by lia.
    destruct (lookup_lt_is_Some_2 args (n + k)%nat H) as [x ->]. reflexivity.
  - rewrite lookup_seqZ_ge by lia. simpl.
    rewrite lookup_ge_None_2 by lia. reflexivity.
Qed.

(** The binding never fails on a rule with a receiver (and a last
    parameter when the rule is marked slice), whatever the number of
    tokens; it yields as many parameters as the method has inputs:
    the handler, then for each parameter before the last the token
    of the same rank or the empty string, then [final_param]. *)
Lemma Run_params_spec (r : rule) (args : list string) :
  let n := reflect.NumIn (reflect.Method_Type (rule_method r)) in
  1 <= n ->
  (rule_slice r = true -> 2 <= n) ->
  exists params,
    Run_params r args = Ret params
    /\ len params = n
    /\ params !! 0%nat = Some (ValueOf_command (rule_command r))
    /\ (forall i, 1 <= i < n - 1 ->
          params !! Z.to_nat i
          = Some (reflect.ValueOf_string (token args (i - 1))))
    /\ (1 < n ->
        params !! Z.to_nat (n - 1) = Some (final_param (rule_slice r) n args)).
Proof.
  intros n Hn Hslice. unfold Run_params. fold n.
  set (p0 := replicate (Z.to_nat n) reflect.ZeroValue).
  assert (len p0 = n) as Hp0 by (unfold len, p0; rewrite length_replicate; lia).
  rewrite store_Ret by lia. rewrite bind_Ret.
  set (p1 := <[Z.to_nat 0 := ValueOf_command (rule_command r)]> p0).
  assert (len p1 = n) as Hp1 by (unfold p1; rewrite len_insert; exact Hp0).
  assert (p1 !! 0%nat = Some (ValueOf_command (rule_command r))) as Hrecv.
  { unfold p1. apply list_lookup_insert_eq. unfold len in *; lia. }
  assert (forall j, (0 < j)%nat -> Z.of_nat j < n ->
                    p1 !! j = Some reflect.ZeroValue) as Hzero.
  { intros j Hj Hjn. unfold p1. rewrite list_lookup_insert_ne by (simpl; lia).
    unfold p0. apply lookup_replicate_2. lia. }
  destruct (set_leading_spec args (seqZ 1 (len p1 - 1 - 1)) p1)
    as (p2 & -> & Hp2 & Hlook).
  { intros i Hi. apply elem_of_seqZ in Hi. lia. }
  rewrite bind_Ret. rewrite Hp2, Hp1.
  assert (p2 !! 0%nat = Some (ValueOf_command (rule_command r))) as Hrecv2.
  { rewrite Hlook. rewrite decide_False; [exact Hrecv|].
    intros H. apply elem_of_seqZ in H. simpl in H. lia. }
  assert (forall i, 1 <= i < n - 1 ->
            p2 !! Z.to_nat i
            = Some (reflect.ValueOf_string (token args (i - 1)))) as Hlead.
  { intros i Hi. rewrite Hlook. rewrite Z2Nat.id by lia.
    rewrite decide_True; [reflexivity|]. apply elem_of_seqZ. lia. }
  assert (1 < n -> p2 !! Z.to_nat (n - 1) = Some reflect.ZeroValue) as Hlast.
  { intros H. rewrite Hlook. rewrite decide_False.
    - apply Hzero; lia.
    - intros H'. apply elem_of_seqZ in H'. lia. }
  unfold final_param. destruct (rule_slice r) eqn:Hs.
  - specialize (Hslice eq_refl).
    rewrite store_Ret by lia. rewrite bind_Ret.
    change (reflect.Zero (reflect.SliceOf reflect.TypeOf_string))
      with (reflect.Val strings_type (reflect.Strs [])).
    replace (n - 1 - 1) with (Z.of_nat (Z.to_nat (n - 2))) by lia.
    rewrite (append_rest_spec args (n - 1) _ []).
    + rewrite tokens_from. simpl. rewrite list_insert_insert_eq.
      eexists. split; [reflexivity|]. rewrite len_insert.
      split; [lia|]. split; [|split].
      * rewrite list_lookup_insert_ne by lia. exact Hrecv2.
      * intros i Hi. rewrite list_lookup_insert_ne by lia. apply Hlead, Hi.
      * intros _. apply list_lookup_insert_eq. unfold len in *; lia.
    + rewrite len_insert. lia.
    + apply list_lookup_insert_eq. unfold len in *; lia.
    + intros j Hj. apply elem_of_seqZ in Hj. lia.
  - destruct (Z.ltb_spec 1 (n - 1)) as [H1|H1].
    + assert (exists v, (if n - 1 <? len args + 1
                         then a ← index args (n - 1 - 1);
                              store p2 (n - 1) (reflect.ValueOf_string a)
                         else store p2 (n - 1) (reflect.ValueOf_string EmptyString))
                        = Ret (<[Z.to_nat (n - 1) := v]> p2)
                        /\ v = reflect.ValueOf_string (token args (n - 2)))
        as (v & -> & Hv).
      { replace (n - 2) with (n - 1 - 1) by lia.
        destruct (Z.ltb_spec (n - 1) (len args + 1)).
        - rewrite index_token, bind_Ret by lia. rewrite store_Ret by lia. eauto.
        - rewrite store_Ret by lia. rewrite token_beyond by lia. eauto. }
      eexists. split; [reflexivity|]. rewrite len_insert.
      split; [lia|]. split; [|split].
      * rewrite list_lookup_insert_ne by lia. exact Hrecv2.
      * intros i Hi. rewrite list_lookup_insert_ne by lia. apply Hlead, Hi.
      * intros _. rewrite Hv. apply list_lookup_insert_eq. unfold len in *; lia.
    + exists p2. split; [reflexivity|]. split; [lia|]. split; [exact Hrecv2|].
      split; [exact Hlead|exact Hlast].
Qed.



(** A rule whose method takes one string and nothing else gets no
    value for it, whatever the tokens: the branch that sets a last
    string parameter is taken only from the second parameter on. *)
Lemma Run_params_single_string (r : rule) (args : list string) :
  rule_slice r = false ->
  reflect.NumIn (reflect.Method_Type (rule_method r)) = 2 ->
  Run_params r args = Ret [ValueOf_command (rule_command r); reflect.ZeroValue].
Proof.
  intros Hs Hn.
  destruct (Run_params_spec r args) as (params & -> & Hlen & Hrecv & _ & Hlast);
    [lia|congruence|]. f_equal.
  rewrite Hn in Hlen, Hlast. rewrite Hs in Hlast. specialize (Hlast ltac:(lia)).
  unfold len in Hlen.
  destruct params as [|v0 [|v1 [|v2 params]]]; simpl in Hlen; try lia.
  simpl in Hrecv, Hlast. congruence.
Qed.

(** C1, at the input where the code departs from it. [runOne] has
    the method [Run(arg string)] and registers without error; on the
    tokens one x the binding leaves its parameter without a value
    and the call panics, so the process ends neither with the exit
    code of the handler nor with its output. *)
Theorem Run_single_string_parameter_unset :
  exists app evs r,
    cli_test.register cli_test.runOne "one" "<arg>" = Ret (app, evs, None)
    /\ rules app !! "one" = Some r
    /\ Run_params r ["x"]
       = Ret [ValueOf_command cli_test.runOne; reflect.ZeroValue]
    /\ run (Run cli_test.Parse_plain cli_test.range_keys app
              cli_test.CommandLine ["one"; "x"]) no_streams
       = Stop (Panicked "reflect: Call using zero Value argument") no_streams.
Proof.
  eexists _, _, _. split; [vm_compute; reflexivity|].
  split; [vm_compute; reflexivity|]. split; vm_compute; reflexivity.
Qed.

(** ** Dispatch: the exit code *)

Lemma registered_shape (r : rule) :
  registered r ->
  1 <= reflect.NumIn (reflect.Method_Type (rule_method r))
  /\ final_shape (reflect.Method_Type (rule_method r))
       (reflect.NumIn (reflect.Method_Type (rule_method r)))
     = Ret (Some (rule_slice r))
  /\ bad_result (reflect.Method_Type (rule_method r)) = Ret false.
Proof.
  intros (a & c & name & arguments & a' & evs & HR & Hr).
  apply Rule_success in HR
    as (method & slice & options & Hm & _ & Hshape & Hbad & _ & _ & ->).
  simpl in Hr. rewrite lookup_insert_eq in Hr. injection Hr as <-. simpl.
  split; [eapply method_has_receiver, Hm|]. split; assumption.
Qed.

Lemma first_result_int (r : rule) (v : reflect.Value) (rv : list reflect.Value) :
  registered r ->
  Forall2 has_type (v :: rv) (reflect.outs (reflect.Method_Type (rule_method r))) ->
  exists t n, v = reflect.Val t (reflect.IntD n)
              /\ reflect.Type_Kind t = reflect.Int
              /\ exit_code (v :: rv) = Ret n.
Proof.
  intros Hreg Hty. apply registered_shape in Hreg as (_ & _ & Hbad).
  destruct (bad_result_spec (reflect.Method_Type (rule_method r)))
    as [[Hnil _]|(o & rest & Houts & _ & Hbad')].
  { rewrite Hnil in Hty. inversion Hty. }
  rewrite Houts in Hty. apply Forall2_cons_1 in Hty as [Hv _].
  rewrite Hbad' in Hbad. injection Hbad as Hbad.
  apply bool_decide_eq_false in Hbad.
  assert (reflect.Type_Kind o = reflect.Int) as Hk.
  { destruct (decide (reflect.Type_Kind o = reflect.Int)); [assumption|tauto]. }
  destruct v as [|t d]; [destruct Hv|]. destruct Hv as [-> Hd].
  rewrite Hk in Hd.
  destruct d as [s|l|n|]; try discriminate; [|destruct Hd; discriminate].
  exists o, n. split; [reflexivity|]. split; [exact Hk|].
  unfold exit_code, index, len. simpl. rewrite Hk. reflexivity.
Qed.

Lemma run_bind {A B : Type} (m : proc A) (f : A -> proc B) (s : streams) :
  run (m ≫= f) s
  = match run m s with
    | Next a s' => run (f a) s'
    | Stop e s' => Stop e s'
    end.
Proof. reflexivity. Qed.

Lemma run_lift_Ret {A : Type} (a : A) (s : streams) :
  run (lift (Ret a)) s = Next a s.
Proof. reflexivity. Qed.

Lemma run_parse (Parse : flag.FlagSet -> list string -> option flag.FlagSet)
    (f f' : flag.FlagSet) (arguments : list string) (s : streams) :
  Parse f arguments = Some f' -> run (parse Parse f arguments) s = Next f' s.
Proof. intros H. unfold parse. simpl. rewrite H. reflexivity. Qed.

Lemma NArg_cons (f : flag.FlagSet) (a : string) (rest : list string) :
  flag.Args f = a :: rest -> (flag.NArg f <? 1) = false.
Proof.
  unfold flag.Args, flag.NArg, len. intros ->. simpl length.
  apply Z.ltb_ge. lia.
Qed.

Lemma Arg_0_cons (f : flag.FlagSet) (a : string) (rest : list string) :
  flag.Args f = a :: rest -> flag.Arg f 0 = a.
Proof. unfold flag.Args, flag.Arg. intros ->. reflexivity. Qed.

(** C7. When [Run] dispatches to a registered rule and the call of
    its method returns, the process ends by [os.Exit]: with code 0
    when the method has no result, and with the integer held by the
    first result otherwise. *)
Theorem Run_exit_code
    (Parse : flag.FlagSet -> list string -> option flag.FlagSet)
    (range : gmap string rule -> list rule)
    (a : application) (CommandLine cl options : flag.FlagSet)
    (osArgs rest : list string) (name : string) (r : rule)
    (params : list reflect.Value) (effects : list effect)
    (rv : list reflect.Value) (s : streams) :
  registered r ->
  Parse CommandLine osArgs = Some cl ->
  flag.Args cl = name :: rest ->
  rules a !! name = Some r ->
  Parse (rule_options r) rest = Some options ->
  Run_params r (flag.Args options) = Ret params ->
  reflect.Call (rule_method r) params = Ret (effects, rv) ->
  Forall2 has_type rv (reflect.outs (reflect.Method_Type (rule_method r))) ->
  run (for_each effects (perform range a)) no_streams = Next tt s ->
  match rv with
  | [] => run (Run Parse range a CommandLine osArgs) no_streams
          = Stop (Exit 0) s
  | v :: _ => exists t n,
                v = reflect.Val t (reflect.IntD n)
                /\ run (Run Parse range a CommandLine osArgs) no_streams
                   = Stop (Exit n) s
  end.
Proof.
  intros Hreg Hcl Hargs Hr Hopt Hparams Hcall Hty Heff.
  assert (forall code, exit_code rv = Ret code ->
            run (Run Parse range a CommandLine osArgs) no_streams
            = Stop (Exit code) s) as Hrun.
  { intros code Hcode. unfold Run.
    rewrite run_bind, (run_parse _ _ _ _ _ Hcl).
    rewrite (NArg_cons cl name rest Hargs), (Arg_0_cons cl name rest Hargs), Hr.
    cbv zeta. rewrite Hargs. change (drop 1 (name :: rest)) with rest.
    rewrite run_bind, (run_parse _ _ _ _ _ Hopt).
    rewrite run_bind, Hparams, run_lift_Ret.
    rewrite run_bind, Hcall, run_lift_Ret.
    rewrite run_bind, Heff, run_bind, Hcode, run_lift_Ret. reflexivity. }
  destruct rv as [|v rv].
  - apply Hrun. reflexivity.
  - destruct (first_result_int r v rv Hreg Hty) as (t & n & -> & _ & Hcode).
    exists t, n. split; [reflexivity|]. apply Hrun, Hcode.
Qed.

Lemma Run_exit_code_witness :
  Rule cli_test.bare cli_test.runFull "full" "<arg1> <arg2> [<extra>]"
  = Ret (cli_test.full_app,
         [made_FlagSet "full";
          called_Flags (TypeOf cli_test.runFull)
            (flag.NewFlagSet "full" flag.ExitOnError)],
         None)
  /\ run (Run cli_test.Parse_plain cli_test.range_keys cli_test.full_app
            cli_test.CommandLine ["full"; "a"; "b"; "c"]) no_streams
     = Stop (Exit 2) no_streams.
Proof.
  split; [reflexivity|].
  assert (registered cli_test.full_rule) as Hreg.
  { exists cli_test.bare, cli_test.runFull, "full", "<arg1> <arg2> [<extra>]",
      cli_test.full_app. eexists. split; reflexivity. }
  assert (Forall2 has_type [reflect.Val cli_test.int (reflect.IntD 2)]
            [cli_test.int]) as Hty.
  { constructor; [|constructor]. simpl. split; reflexivity. }
  destruct (Run_exit_code cli_test.Parse_plain cli_test.range_keys
              cli_test.full_app cli_test.CommandLine _ _
              ["full"; "a"; "b"; "c"] ["a"; "b"; "c"] "full"
              cli_test.full_rule _ [] [reflect.Val cli_test.int (reflect.IntD 2)]
              no_streams Hreg eq_refl eq_refl eq_refl eq_refl eq_refl eq_refl
              Hty eq_refl)
    as (t & n & Hv & Hrun).
  injection Hv as _ <-. exact Hrun.
Defined.

(** ** Usage: the line of a flag *)

Lemma append_empty (s : string) : String.append s EmptyString = s.
Proof.
  induction s as [|c s IH]; [reflexivity|].
  change (String c (String.append s EmptyString) = String c s).
  rewrite IH. reflexivity.
Qed.

(** C9, as stated, fails: [runVerbose] declares a boolean flag whose
    default is true, and the usage shows it with its default in
    double quotes, not as the bare name. *)
Lemma usage_boolean_flag_counterexample :
  exists app evs r fl,
    Rule cli_test.bare cli_test.runVerbose "verbose" EmptyString
    = Ret (app, evs, None)
    /\ rules app !! "verbose" = Some r
    /\ flag.VisitAll (rule_options r) = [fl]
    /\ flag.IsBoolFlag (flag.Value_ fl) = true
    /\ flag_option fl = "-verbose=" ++ dquote ++ "true" ++ dquote
    /\ flag_option fl <> "-" ++ flag.Name fl
    /\ run (printUsage cli_test.range_keys app os_Stderr) no_streams
       = Next tt
           {| stdout := EmptyString;
              stderr := "Usage: myapp <cmd> [options] [<args>]" ++ nl
                        ++ "  verbose [options]   say more" ++ nl
                        ++ "    -verbose=" ++ dquote ++ "true" ++ dquote
                        ++ "   say more" ++ nl
                        ++ nl |}.
Proof.
  eexists _, _, _, _. split; [reflexivity|]. split; [reflexivity|].
  split; [reflexivity|]. split; [reflexivity|]. split; [reflexivity|].
  split; [discriminate|]. vm_compute. reflexivity.
Qed.

(** C9, amended. The usage line of a flag is four spaces, the option
    text, padding, the help text and a newline, when the option text
    fits the column. The option text is the dash and the name,
    followed by a placeholder chosen by the text of the default: an
    empty default gives =<value>; the default false gives nothing;
    a default that [strconv.Atoi] accepts gives =<n>; any other
    default is shown itself between double quotes. *)
Theorem usage_flag_placeholder (w : Writer) (length : Z) (fl : flag.Flag)
    (s : streams) :
  len_string (flag_option fl) + 2 <= length ->
  flag_option fl
  = "-" ++ flag.Name fl
    ++ (if String.eqb (flag.DefValue fl) EmptyString then "=<value>"
        else if String.eqb (flag.DefValue fl) "false" then EmptyString
        else match strconv.Atoi (flag.DefValue fl) with
             | Some _ => "=<n>"
             | None => "=" ++ dquote ++ flag.DefValue fl ++ dquote
             end)
  /\ run (visit w length fl) s
     = Next tt (written w
                  ("    " ++ flag_option fl
                   ++ gostrings.repeat_string " "
                        (Z.to_nat (length - len_string (flag_option fl) - 2))
                   ++ flag.Usage fl ++ nl)
                  s).
Proof.
  intros Hfit. split.
  - unfold flag_option, placeholder.
    destruct (String.eqb (flag.DefValue fl) EmptyString); [reflexivity|].
    destruct (String.eqb (flag.DefValue fl) "false").
    + simpl. rewrite append_empty. reflexivity.
    + destruct (strconv.Atoi (flag.DefValue fl)); reflexivity.
  - unfold visit. rewrite run_bind. unfold gostrings.Repeat.
    destruct (Z.ltb_spec (length - len_string (flag_option fl) - 2) 0); [lia|].
    rewrite run_lift_Ret. destruct w; reflexivity.
Qed.

Lemma usage_flag_placeholder_witness :
  run (visit os_Stderr 20
         {| flag.Name := "number"; flag.Usage := "some number";
            flag.Value_ := flag.intValue 0; flag.DefValue := "0" |})
      no_streams
  = Next tt {| stdout := EmptyString;
               stderr := "    -number=<n>       some number" ++ nl |}.
Proof.
  refine (proj2 (usage_flag_placeholder os_Stderr 20
                   {| flag.Name := "number"; flag.Usage := "some number";
                      flag.Value_ := flag.intValue 0; flag.DefValue := "0" |}
                   no_streams _)).
  vm_compute. discriminate.
Defined.

(** ** The package's tests, and two runs *)

(** TestNew: a new application has the rules help and version. *)
Example TestNew :
  exists app, cli_test.myapp = Ret app /\ size (rules app) = 2%nat.
Proof. eexists. split; vm_compute; reflexivity. Qed.

(** TestRuleRunFull: [runFull] registers, and makes a third rule. *)
Example TestRuleRunFull :
  exists app evs,
    cli_test.register cli_test.runFull "full" "<arg1> <arg2> [<extra>]"
    = Ret (app, evs, None)
    /\ size (rules app) = 3%nat.
Proof. eexists _, _. split; vm_compute; reflexivity. Qed.

(** TestRuleRunMissing, TestRuleRunStrings, TestRuleRunReturnValue:
    each of the three handlers is refused, with the error the test
    names. *)
Example TestRuleRun_errors :
  exists app,
    cli_test.myapp = Ret app
    /\ cli_test.register cli_test.runErrMissing "missing" EmptyString
       = Ret (app, [], Some errRunMissing)
    /\ cli_test.register cli_test.runErrString "string" EmptyString
       = Ret (app, [], Some errRunString)
    /\ cli_test.register cli_test.runErrReturnValue "return" EmptyString
       = Ret (app, [], Some errRunReturnValue).
Proof. eexists. repeat split; vm_compute; reflexivity. Qed.

(** The version command prints the name and the version, and the
    process exits with code 0. *)
Example Run_version :
  cli_test.run_with cli_test.runFull "full" "<arg1> <arg2> [<extra>]" ["version"]
  = Ret (Stop (Exit 0) {| stdout := "myapp v0.0.1" ++ nl;
                          stderr := EmptyString |}).
Proof. vm_compute. reflexivity. Qed.

(** A method whose last parameter is written [...string] registers
    as a slice rule, and its call panics: [Call] spreads the
    arguments after the fixed ones over the variadic parameter, and
    the one slice the binding made is not a string. *)
Example Run_variadic_method_panics :
  cli_test.run_with cli_test.runVariadic "all" "[<args>]" ["all"; "x"; "y"]
  = Ret (Stop (Panicked "reflect: cannot use argument as element type in Call")
              no_streams).
Proof. vm_compute. reflexivity. Qed.

(** ** Run: the ways to the exit *)

(** [Run], once the command line names a registered rule and the
    flag set of the rule has parsed what follows, is [dispatch]. *)
Lemma Run_dispatch
    (Parse : flag.FlagSet -> list string -> option flag.FlagSet)
    (range : gmap string rule -> list rule)
    (a : application) (CommandLine cl options : flag.FlagSet)
    (osArgs rest : list string) (name : string) (r : rule) (s : streams) :
  Parse CommandLine osArgs = Some cl ->
  flag.Args cl = name :: rest ->
  rules a !! name = Some r ->
  Parse (rule_options r) rest = Some options ->
  run (Run Parse range a CommandLine osArgs) s
  = run (dispatch range a r (flag.Args options)) s.
Proof.
  intros Hcl Hargs Hr Hopt. unfold Run.
  rewrite run_bind, (run_parse _ _ _ _ _ Hcl).
  rewrite (NArg_cons cl name rest Hargs), (Arg_0_cons cl name rest Hargs), Hr.
  cbv zeta. rewrite Hargs. change (drop 1 (name :: rest)) with rest.
  rewrite run_bind, (run_parse _ _ _ _ _ Hopt). reflexivity.
Qed.

Lemma NArg_nil (f : flag.FlagSet) :
  flag.Args f = [] -> (flag.NArg f <? 1) = true.
Proof. unfold flag.Args, flag.NArg, len. intros ->. reflexivity. Qed.

(** X1. With no command on the command line, [Run] prints the usage
    on standard error and nothing else, and exits with code 1; the
    rule mapping is not consulted. Should the usage printer stop the
    process, [Run] stops the same way. *)
Theorem Run_without_command
    (Parse : flag.FlagSet -> list string -> option flag.FlagSet)
    (range : gmap string rule -> list rule)
    (a : application) (CommandLine cl : flag.FlagSet)
    (osArgs : list string) (s : streams) :
  Parse CommandLine osArgs = Some cl ->
  flag.Args cl = [] ->
  run (Run Parse range a CommandLine osArgs) s
  = match run (printUsage range a os_Stderr) s with
    | Next _ s' => Stop (Exit 1) s'
    | Stop e s' => Stop e s'
    end.
Proof.
  intros Hcl Hargs. unfold Run.
  rewrite run_bind, (run_parse _ _ _ _ _ Hcl), (NArg_nil cl Hargs).
  rewrite run_bind. unfold usage.
  destruct (run (printUsage range a os_Stderr) s); reflexivity.
Qed.

Lemma Run_without_command_witness :
  run (Run cli_test.Parse_plain cli_test.range_keys cli_test.full_app
         cli_test.CommandLine []) no_streams
  = Stop (Exit 1)
      {| stdout := EmptyString;
         stderr := "Usage: myapp <cmd> [options] [<args>]" ++ nl
                   ++ "  full [options] <arg1> <arg2> [<extra>]   runFull help" ++ nl
                   ++ "    -number=<n>                            some number" ++ nl
                   ++ nl |}.
Proof.
  exact (Run_without_command cli_test.Parse_plain cli_test.range_keys
           cli_test.full_app cli_test.CommandLine _ [] no_streams
           eq_refl eq_refl).
Defined.

(** X2. With a first argument that names no rule, [Run] prints the
    line Error: invalid command and the name, then the usage, all on
    standard error, and exits with code 1; no handler is called. *)
Theorem Run_unknown_command
    (Parse : flag.FlagSet -> list string -> option flag.FlagSet)
    (range : gmap string rule -> list rule)
    (a : application) (CommandLine cl : flag.FlagSet)
    (osArgs rest : list string) (name : string) (s : streams) :
  Parse CommandLine osArgs = Some cl ->
  flag.Args cl = name :: rest ->
  rules a !! name = None ->
  run (Run Parse range a CommandLine osArgs) s
  = match run (printUsage range a os_Stderr)
                (written os_Stderr ("Error: invalid command " ++ name ++ nl) s)
    with
    | Next _ s' => Stop (Exit 1) s'
    | Stop e s' => Stop e s'
    end.
Proof.
  intros Hcl Hargs Hr. unfold Run.
  rewrite run_bind, (run_parse _ _ _ _ _ Hcl).
  rewrite (NArg_cons cl name rest Hargs), (Arg_0_cons cl name rest Hargs), Hr.
  rewrite run_bind. unfold usage.
  change (run (Fprintf os_Stderr ("Error: invalid command " ++ name ++ nl)) s)
    with (Next tt (written os_Stderr ("Error: invalid command " ++ name ++ nl) s)).
  cbv iota beta. rewrite run_bind.
  destruct (run (printUsage range a os_Stderr) _); reflexivity.
Qed.

Lemma Run_unknown_command_witness :
  run (Run cli_test.Parse_plain cli_test.range_keys cli_test.full_app
         cli_test.CommandLine ["frobnicate"; "x"]) no_streams
  = Stop (Exit 1)
      {| stdout := EmptyString;
         stderr := "Error: invalid command frobnicate" ++ nl
                   ++ "Usage: myapp <cmd> [options] [<args>]" ++ nl
                   ++ "  full [options] <arg1> <arg2> [<extra>]   runFull help" ++ nl
                   ++ "    -number=<n>                            some number" ++ nl
                   ++ nl |}.
Proof.
  exact (Run_unknown_command cli_test.Parse_plain cli_test.range_keys
           cli_test.full_app cli_test.CommandLine _ ["frobnicate"; "x"] ["x"]
           "frobnicate" no_streams eq_refl eq_refl eq_refl).
Defined.

(** ** Registration: every outcome and its cause *)

Lemma checks_parameters_accepted (t : reflect.FuncType) (slice : bool) :
  all_strings t (seqZ 1 (reflect.NumIn t - 1 - 1)) = Ret true ->
  final_shape t (reflect.NumIn t) = Ret (Some slice) ->
  parameters_accepted t.
Proof.
  intros Hall Hshape. split.
  - destruct (all_strings_leading t) as [[_ H]|[H _]]; [exact H|congruence].
  - intros final Hn Hf.
    destruct (final_shape_spec t) as [[Hle _]|(final' & b & _ & Hf' & Hb & Hs)];
      [lia|].
    assert (final' = final) as -> by congruence.
    rewrite Hs in Hshape. destruct b; [right; exact Hb|left].
    destruct (decide (reflect.Type_Kind final ≠ reflect.String)) as [Hk|Hk];
      [discriminate|].
    destruct (decide (reflect.Type_Kind final = reflect.String)); tauto.
Qed.

(** The slice flag that [final_shape] yields says whether there is a
    last parameter that is a slice of strings. *)
Lemma final_shape_slice (t : reflect.FuncType) (slice : bool) :
  final_shape t (reflect.NumIn t) = Ret (Some slice) ->
  slice = true
  <-> exists final, 1 < reflect.NumIn t
                    /\ reflect.In t (reflect.NumIn t - 1) = Ret final
                    /\ is_string_slice final = Ret true.
Proof.
  intros Hshape.
  destruct (final_shape_spec t) as [[Hle Hs]|(final & b & Hn & Hf & Hb & Hs)];
    rewrite Hs in Hshape.
  - injection Hshape as <-. split; [discriminate|]. intros (? & ? & _). lia.
  - split.
    + intros ->. exists final. destruct b; [auto|].
      destruct (decide (reflect.Type_Kind final ≠ reflect.String)); discriminate.
    + intros (final' & _ & Hf' & Hb').
      assert (final' = final) as -> by congruence.
      assert (b = true) as -> by congruence.
      injection Hshape as <-. reflexivity.
Qed.

(** The three outcomes of [Rule] on a handler that has a Run
    method. *)
Lemma Rule_outcome (a : application) (c : command) (name arguments : string)
    (method : reflect.Method) :
  MethodByName c "Run" = Some method ->
  let t := reflect.Method_Type method in
  (~ parameters_accepted t
   /\ Rule a c name arguments = Ret (a, [], Some errRunString))
  \/ (parameters_accepted t
      /\ exists o, reflect.Out t 0 = Ret o
                   /\ reflect.Type_Kind o <> reflect.Int
                   /\ Rule a c name arguments
                      = Ret (a, [], Some errRunReturnValue))
  \/ (parameters_accepted t
      /\ (reflect.outs t = []
          \/ exists o, reflect.Out t 0 = Ret o
                       /\ reflect.Type_Kind o = reflect.Int)
      /\ exists slice,
           final_shape t (reflect.NumIn t) = Ret (Some slice)
           /\ Rule a c name arguments
              = (options ← Flags c (flag.NewFlagSet name flag.ExitOnError);
                 Ret (with_rule a name
                        (stored_rule c method slice name options arguments),
                      [made_FlagSet name;
                       called_Flags (TypeOf c)
                         (flag.NewFlagSet name flag.ExitOnError)],
                      None))).
Proof.
  intros Hm t. unfold Rule. rewrite Hm. fold t.
  destruct (all_strings_leading t) as [[Hall Hs]|[Hall (i & ty & Hi & Hty & Hk)]];
    rewrite Hall, bind_Ret; simpl.
  2:{ left. split; [|reflexivity]. intros [Hacc _]. apply Hk, (Hacc i ty Hi Hty). }
  destruct (final_shape_spec t) as [[Hle Hshape]|(final & b & Hn & Hf & Hb & Hshape)].
  - rewrite Hshape, bind_Ret.
    pose proof (checks_parameters_accepted t false Hall Hshape) as Hacc.
    destruct (bad_result_spec t) as [[Hnil ->]|(o & rest & Houts & Ho & ->)];
      rewrite bind_Ret.
    + right. right. split; [exact Hacc|]. split; [left; exact Hnil|].
      exists false. split; reflexivity.
    + destruct (decide (reflect.Type_Kind o = reflect.Int)) as [Hk|Hk].
      * rewrite bool_decide_false by tauto.
        right. right. split; [exact Hacc|]. split; [right; eauto|].
        exists false. split; reflexivity.
      * rewrite bool_decide_true by exact Hk.
        right. left. split; [exact Hacc|]. exists o. auto.
  - rewrite Hshape, bind_Ret.
    destruct b; [|destruct (decide (reflect.Type_Kind final ≠ reflect.String))
                    as [Hk|Hk]].
    2:{ left. split; [|reflexivity]. intros [_ Hacc].
        destruct (Hacc final Hn Hf) as [H|H]; [tauto|congruence]. }
    all: match type of Hshape with
         | _ = Ret (Some ?sl) =>
             pose proof (checks_parameters_accepted t sl Hall Hshape) as Hacc;
             destruct (bad_result_spec t)
               as [[Hnil ->]|(o & rest & Houts & Ho & ->)];
             rewrite bind_Ret;
             [ right; right; split; [exact Hacc|]; split; [left; exact Hnil|];
               exists sl; split; reflexivity
             | destruct (decide (reflect.Type_Kind o = reflect.Int)) as [Hk'|Hk'];
               [ rewrite bool_decide_false by tauto;
                 right; right; split; [exact Hacc|]; split; [right; eauto|];
                 exists sl; split; reflexivity
               | rewrite bool_decide_true by exact Hk';
                 right; left; split; [exact Hacc|]; exists o; auto ] ]
         end.
Qed.

Lemma MethodByName_None_inv (c : command) (name : string) :
  MethodByName c name = None ->
  forall d, d ∈ methods c -> decl_name d <> name.
Proof.
  unfold MethodByName. intros H d Hd Hname.
  destruct (find _ (methods c)) as [d'|] eqn:E; [discriminate|].
  apply list_elem_of_In in Hd.
  pose proof (find_none _ _ E d Hd) as Hf. simpl in Hf.
  rewrite Hname, String.eqb_refl in Hf. discriminate.
Qed.

(** X3. Each error of [Rule] has one cause. [errRunMissing]: the
    handler declares no method named Run. [errRunString]: it has
    one, whose parameters do not pass the checks. [errRunReturnValue]:
    it has one, its parameters pass, and its first result is not of
    kind Int. *)
Theorem Rule_error_cause (a a' : application) (c : command)
    (name arguments : string) (evs : list event) (e : error) :
  Rule a c name arguments = Ret (a', evs, Some e) ->
  match e with
  | errRunMissing => forall d, d ∈ methods c -> decl_name d <> "Run"
  | errRunString =>
      exists method,
        MethodByName c "Run" = Some method
        /\ ~ parameters_accepted (reflect.Method_Type method)
  | errRunReturnValue =>
      exists method o,
        MethodByName c "Run" = Some method
        /\ parameters_accepted (reflect.Method_Type method)
        /\ reflect.Out (reflect.Method_Type method) 0 = Ret o
        /\ reflect.Type_Kind o <> reflect.Int
  end.
Proof.
  intros H. destruct (MethodByName c "Run") as [method|] eqn:Hm.
  - destruct (Rule_outcome a c name arguments method Hm)
      as [[Hacc HR]|[(Hacc & o & Ho & Hk & HR)|(_ & _ & slice & _ & HR)]];
      rewrite HR in H.
    + injection H as _ _ <-. eauto.
    + injection H as _ _ <-. exists method, o. auto.
    + destruct (Flags c _); discriminate.
  - unfold Rule in H. rewrite Hm in H. injection H as _ _ <-.
    apply MethodByName_None_inv, Hm.
Qed.

Lemma Rule_error_cause_witness :
  Rule cli_test.bare cli_test.runErrBoth "both" EmptyString
  = Ret (cli_test.bare, [], Some errRunString)
  /\ exists method,
       MethodByName cli_test.runErrBoth "Run" = Some method
       /\ ~ parameters_accepted (reflect.Method_Type method).
Proof.
  split; [reflexivity|].
  exact (Rule_error_cause cli_test.bare cli_test.bare cli_test.runErrBoth
           "both" EmptyString [] errRunString eq_refl).
Defined.



(** X5. A handler with a Run method whose parameters pass the checks
    and which has no result, or a first result of kind Int, is
    registered whenever its [Flags] returns: [Rule] returns nil after
    making one flag set and calling [Flags] on it once, and stores
    under the name a rule with the handler, the method, the name, the
    usage arguments, the flag set as [Flags] left it, and a slice
    flag that is true exactly when the last parameter is a slice of
    strings. *)
Theorem Rule_accepts (a : application) (c : command) (name arguments : string)
    (method : reflect.Method) (options : flag.FlagSet) :
  MethodByName c "Run" = Some method ->
  parameters_accepted (reflect.Method_Type method) ->
  (reflect.outs (reflect.Method_Type method) = []
   \/ exists o, reflect.Out (reflect.Method_Type method) 0 = Ret o
                /\ reflect.Type_Kind o = reflect.Int) ->
  Flags c (flag.NewFlagSet name flag.ExitOnError) = Ret options ->
  exists slice,
    Rule a c name arguments
    = Ret (with_rule a name (stored_rule c method slice name options arguments),
           [made_FlagSet name;
            called_Flags (TypeOf c) (flag.NewFlagSet name flag.ExitOnError)],
           None)
    /\ (slice = true
        <-> exists final,
              1 < reflect.NumIn (reflect.Method_Type method)
              /\ reflect.In (reflect.Method_Type method)
                   (reflect.NumIn (reflect.Method_Type method) - 1) = Ret final
              /\ is_string_slice final = Ret true).
Proof.
  intros Hm Hacc Hout Hflags.
  destruct (Rule_outcome a c name arguments method Hm)
    as [[Hn _]|[(_ & o & Ho & Hk & _)|(_ & _ & slice & Hshape & HR)]].
  - destruct (Hn Hacc).
  - destruct Hout as [Hnil|(o' & Ho' & Hk')].
    + unfold reflect.Out, reflect.NumOut in Ho. rewrite Hnil in Ho. discriminate.
    + assert (o' = o) as -> by congruence. destruct (Hk Hk').
  - exists slice. rewrite HR, Hflags, bind_Ret. split; [reflexivity|].
    apply final_shape_slice, Hshape.
Qed.

Lemma Rule_accepts_witness :
  exists slice app,
    Rule cli_test.bare cli_test.runFull "full" "<arg1> <arg2> [<extra>]"
    = Ret (app,
           [made_FlagSet "full";
            called_Flags (TypeOf cli_test.runFull)
              (flag.NewFlagSet "full" flag.ExitOnError)],
           None)
    /\ exists r, rules app !! "full" = Some r
                 /\ rule_command r = cli_test.runFull
                 /\ rule_slice r = slice.
Proof.
  destruct (Rule_accepts cli_test.bare cli_test.runFull "full"
              "<arg1> <arg2> [<extra>]" _
              (rule_options cli_test.full_rule) eq_refl) as (slice & HR & _).
  - split.
    + intros i ty Hi Hty. unfold reflect.NumIn, len in Hi. simpl in Hi.
      assert (i = 1 \/ i = 2) as [-> | ->] by lia;
        vm_compute in Hty; injection Hty as <-; reflexivity.
    + intros final _ Hf. vm_compute in Hf. injection Hf as <-.
      right. reflexivity.
  - right. exists cli_test.int. split; reflexivity.
  - reflexivity.
  - exists slice. eexists. split; [exact HR|].
    eexists. split; [apply lookup_insert_eq|]. split; reflexivity.
Defined.

(** ** Registration: what the application keeps *)

Lemma Rule_success_with_rule (a a' : application) (c : command)
    (name arguments : string) (evs : list event) :
  Rule a c name arguments = Ret (a', evs, None) ->
  exists method slice options,
    a' = with_rule a name (stored_rule c method slice name options arguments).
Proof.
  intros H. apply Rule_success in H
    as (method & slice & options & _ & _ & _ & _ & _ & _ & ->).
  exists method, slice, options. reflexivity.
Qed.

(** X6. A successful registration keeps the name and the version of
    the application and adds the name to the keys of the rule
    mapping, and nothing else: the mapping has one entry more when
    the name was free, and as many as before when it was taken. *)
Theorem Rule_adds_one_key (a a' : application) (c : command)
    (name arguments : string) (evs : list event) :
  Rule a c name arguments = Ret (a', evs, None) ->
  app_name a' = app_name a
  /\ app_version a' = app_version a
  /\ dom (rules a') = {[name]} ∪ dom (rules a)
  /\ (rules a !! name = None -> size (rules a') = S (size (rules a)))
  /\ (is_Some (rules a !! name) -> size (rules a') = size (rules a)).
Proof.
  intros H. apply Rule_success_with_rule in H as (method & slice & options & ->).
  simpl. split; [reflexivity|]. split; [reflexivity|].
  split; [apply dom_insert_L|]. split.
  - intros Hnone. apply map_size_insert_None, Hnone.
  - intros Hsome. apply map_size_insert_Some, Hsome.
Qed.

Lemma Rule_adds_one_key_witness :
  exists app evs,
    Rule cli_test.full_app cli_test.runOne "full" "<arg>" = Ret (app, evs, None)
    /\ app_name app = "myapp"
    /\ size (rules app) = 1%nat.
Proof.
  eexists _, _. split; [reflexivity|].
  match goal with
  | |- app_name ?app = _ /\ _ =>
      destruct (Rule_adds_one_key cli_test.full_app app cli_test.runOne
                  "full" "<arg>" _ eq_refl) as (Hn & _ & _ & _ & Hsize)
  end.
  split; [exact Hn|].
  rewrite Hsize; [reflexivity|]. eexists. reflexivity.
Defined.

Lemma Rule_keeps_names (a a' : application) (c : command)
    (name arguments : string) (evs : list event) (err : option error) :
  names_agree a ->
  Rule a c name arguments = Ret (a', evs, err) ->
  names_agree a'.
Proof.
  intros Ha HR. destruct err as [e|].
  - apply Rule_refusal in HR as [-> _]. exact Ha.
  - pose proof HR as HR'.
    apply Rule_success_with_rule in HR' as (method & slice & options & ->).
    intros k r Hr. simpl in Hr.
    destruct (decide (name = k)) as [<-|Hne].
    + rewrite lookup_insert_eq in Hr. injection Hr as <-.
      split; [reflexivity|].
      exists a, c, name, arguments. eexists. exists evs.
      split; [exact HR|]. apply lookup_insert_eq.
    + rewrite lookup_insert_ne in Hr by exact Hne. apply Ha, Hr.
Qed.

Lemma New_two_rules (name version : string) :
  New name version
  = Ret (with_rule
           (with_rule {| app_name := name; app_version := version; rules := ∅ |}
              "help"
              (stored_rule commandHelp
                 (method_of (TypeOf commandHelp)
                    (hd (Build_method_decl EmptyString [] false []
                           (fun _ => Ret ([], [])))
                        (methods commandHelp)))
                 false "help" (flag.NewFlagSet "help" flag.ExitOnError)
                 EmptyString))
           "version"
           (stored_rule (commandVersion name version)
              (method_of (TypeOf (commandVersion name version))
                 (hd (Build_method_decl EmptyString [] false []
                        (fun _ => Ret ([], [])))
                     (methods (commandVersion name version))))
              false "version" (flag.NewFlagSet "version" flag.ExitOnError)
              EmptyString)).
Proof. reflexivity. Qed.

Lemma New_names_agree (name version : string) (app : application) :
  New name version = Ret app -> names_agree app.
Proof.
  intros H. unfold New in H.
  destruct (Rule _ commandHelp "help" EmptyString)
    as [[[a1 e1] r1]|] eqn:H1; [|discriminate].
  rewrite bind_Ret in H. cbv beta iota in H.
  destruct (Rule a1 _ "version" EmptyString)
    as [[[a2 e2] r2]|] eqn:H2; [|discriminate].
  rewrite bind_Ret in H. cbv beta iota in H. injection H as <-.
  eapply Rule_keeps_names; [|exact H2].
  eapply Rule_keeps_names; [|exact H1].
  intros k r Hr. simpl in Hr. rewrite lookup_empty in Hr. discriminate.
Qed.

(** X7. In every application that [New] makes and registrations
    extend, each key of the rule mapping leads to a rule that carries
    that key as its name and that a successful registration made:
    the property holds after [New] and every call of [Rule] keeps
    it, whatever its outcome. *)
Theorem rule_names_agree :
  (forall name version app, New name version = Ret app -> names_agree app)
  /\ (forall a a' c name arguments evs err,
        names_agree a ->
        Rule a c name arguments = Ret (a', evs, err) ->
        names_agree a').
Proof. split; [apply New_names_agree|apply Rule_keeps_names]. Qed.

(** X8. [New] does not fail. The application it makes has the name
    and the version given and exactly two rules, help and version;
    each holds its built-in handler, takes no positional parameter,
    is not a slice rule and has no flag. *)
Theorem New_has_help_and_version (name version : string) :
  exists app h v,
    New name version = Ret app
    /\ app_name app = name
    /\ app_version app = version
    /\ dom (rules app) = {["help"; "version"]}
    /\ rules app !! "help" = Some h
    /\ rules app !! "version" = Some v
    /\ rule_command h = commandHelp
    /\ rule_command v = commandVersion name version
    /\ reflect.NumIn (reflect.Method_Type (rule_method h)) = 1
    /\ reflect.NumIn (reflect.Method_Type (rule_method v)) = 1
    /\ rule_slice h = false /\ rule_slice v = false
    /\ flag.VisitAll (rule_options h) = []
    /\ flag.VisitAll (rule_options v) = [].
Proof.
  eexists _, _, _. split; [apply New_two_rules|].
  split; [reflexivity|]. split; [reflexivity|]. split.
  { simpl. rewrite !dom_insert_L, dom_empty_L. set_solver. }
  split.
  { simpl. rewrite lookup_insert_ne by discriminate. apply lookup_insert_eq. }
  split; [simpl; apply lookup_insert_eq|].
  repeat split.
Qed.

(** ** Dispatch: the parameters as one list *)

Lemma length_padded (n : nat) (args : list string) : length (padded n args) = n.
Proof.
  unfold padded. rewrite length_take, length_app, length_replicate. lia.
Qed.

Lemma padded_lookup (n : nat) (args : list string) (j : nat) :
  (j < n)%nat -> padded n args !! j = Some (token args (Z.of_nat j)).
Proof.
  intros Hj. unfold padded, token. rewrite lookup_take_lt by exact Hj.
  rewrite Nat2Z.id.
  destruct (decide (j < length args)%nat) as [Hlt|Hge].
  - rewrite lookup_app_l by exact Hlt.
    destruct (lookup_lt_is_Some_2 args j Hlt) as [x ->]. reflexivity.
  - rewrite lookup_app_r by lia.
    rewrite (lookup_ge_None_2 args j) by lia.
    rewrite lookup_replicate_2 by lia. reflexivity.
Qed.

Lemma padded_succ (n : nat) (args : list string) :
  padded (S n) args = (padded n args ++ [token args (Z.of_nat n)])%list.
Proof.
  apply list_eq. intros j.
  destruct (decide (j < n)%nat) as [Hlt|Hge].
  - rewrite lookup_app_l by (rewrite length_padded; exact Hlt).
    rewrite !padded_lookup by lia. reflexivity.
  - destruct (decide (j = n)) as [->|Hne].
    + rewrite lookup_app_r by (rewrite length_padded; lia).
      rewrite length_padded, Nat.sub_diag, padded_lookup by lia. reflexivity.
    + rewrite !lookup_ge_None_2; [reflexivity| |].
      * rewrite length_app, length_padded. simpl. lia.
      * rewrite length_padded. lia.
Qed.

Lemma padded_enough (n : nat) (args extra : list string) :
  (n <= length args)%nat -> padded n (args ++ extra) = padded n args.
Proof.
  intros Hn. unfold padded. rewrite <- !app_assoc.
  rewrite !take_app_le by exact Hn. reflexivity.
Qed.

(** The parameters [Run] prepares, as a list: the handler, the
    tokens before the last parameter with empty strings where they
    run out, and [final_param]. *)
Lemma Run_params_list (r : rule) (args : list string) (N : nat) :
  reflect.NumIn (reflect.Method_Type (rule_method r)) = Z.of_nat N + 2 ->
  Run_params r args
  = Ret (ValueOf_command (rule_command r)
         :: (reflect.ValueOf_string <$> padded N args)
         ++ [final_param (rule_slice r) (Z.of_nat N + 2) args]).
Proof.
  intros Hn.
  destruct (Run_params_spec r args) as (params & -> & Hlen & Hrecv & Hlead & Hlast);
    [lia|lia|]. f_equal.
  rewrite Hn in Hlen, Hlead, Hlast.
  assert (length (reflect.ValueOf_string <$> padded N args) = N) as HlenN.
  { rewrite length_fmap. apply length_padded. }
  apply list_eq. intros [|j].
  - exact Hrecv.
  - simpl. destruct (decide (j < N)%nat) as [Hj|Hj].
    + specialize (Hlead (Z.of_nat (S j)) ltac:(lia)).
      rewrite Nat2Z.id in Hlead. rewrite Hlead.
      rewrite lookup_app_l by lia.
      rewrite list_lookup_fmap, padded_lookup by exact Hj. simpl.
      replace (Z.of_nat (S j) - 1) with (Z.of_nat j) by lia. reflexivity.
    + destruct (decide (j = N)) as [->|Hne].
      * specialize (Hlast ltac:(lia)).
        replace (Z.to_nat (Z.of_nat N + 2 - 1)) with (S N) in Hlast by lia.
        rewrite Hlast.
        rewrite lookup_app_r by lia. rewrite HlenN, Nat.sub_diag. reflexivity.
      * rewrite lookup_ge_None_2 by (unfold len in Hlen; lia).
        symmetry. apply lookup_ge_None_2. rewrite length_app, HlenN. simpl. lia.
Qed.

(** X9. A rule that is not a slice rule and whose method has [P]
    parameters, two or more, is called with exactly [P] strings: the
    first [P] tokens, with empty strings where the tokens run out.
    Tokens beyond the first [P] play no part. *)
Theorem Run_params_fixed (r : rule) (args : list string) (P : nat) :
  rule_slice r = false ->
  reflect.NumIn (reflect.Method_Type (rule_method r)) = Z.of_nat P + 1 ->
  (2 <= P)%nat ->
  Run_params r args
  = Ret (ValueOf_command (rule_command r)
         :: (reflect.ValueOf_string <$> padded P args))
  /\ forall extra, (P <= length args)%nat ->
                   Run_params r (args ++ extra) = Run_params r args.
Proof.
  intros Hs Hn HP. destruct P as [|N]; [lia|].
  assert (forall l, Run_params r l
                    = Ret (ValueOf_command (rule_command r)
                           :: (reflect.ValueOf_string <$> padded (S N) l)))
    as Hlist.
  { intros l. rewrite (Run_params_list r l N) by lia.
    rewrite Hs, padded_succ, fmap_app. unfold final_param.
    destruct (Z.ltb_spec 1 (Z.of_nat N + 2 - 1)); [|lia].
    replace (Z.of_nat N + 2 - 2) with (Z.of_nat N) by lia. reflexivity. }
  split; [apply Hlist|].
  intros extra Hlen. rewrite !Hlist, padded_enough by exact Hlen. reflexivity.
Qed.

(** X10. A slice rule whose method has [N] parameters before the
    last is called, whatever the number of tokens, with the first
    [N] tokens, empty strings standing for the missing ones, and
    then the slice of the tokens from [N] on, which is empty when
    there are [N] tokens or fewer. *)
Theorem Run_params_slice (r : rule) (args : list string) (N : nat) :
  rule_slice r = true ->
  reflect.NumIn (reflect.Method_Type (rule_method r)) = Z.of_nat N + 2 ->
  Run_params r args
  = Ret (ValueOf_command (rule_command r)
         :: (reflect.ValueOf_string <$> padded N args)
         ++ [reflect.Val strings_type (reflect.Strs (drop N args))])
  /\ ((length args <= N)%nat -> drop N args = []).
Proof.
  intros Hs Hn. split.
  - rewrite (Run_params_list r args N Hn), Hs. unfold final_param.
    replace (Z.to_nat (Z.of_nat N + 2 - 2)) with N by lia. reflexivity.
  - intros Hlen. apply drop_ge. exact Hlen.
Qed.

Lemma Run_params_fixed_witness :
  Rule cli_test.bare cli_test.runPair "pair" "<key> <value>"
  = Ret (cli_test.pair_app,
         [made_FlagSet "pair";
          called_Flags (TypeOf cli_test.runPair)
            (flag.NewFlagSet "pair" flag.ExitOnError)],
         None)
  /\ Run_params cli_test.pair_rule ["a"]
     = Ret [ValueOf_command cli_test.runPair;
            reflect.ValueOf_string "a"; reflect.ValueOf_string EmptyString]
  /\ Run_params cli_test.pair_rule ["a"; "b"; "c"]
     = Run_params cli_test.pair_rule ["a"; "b"].
Proof.
  split; [reflexivity|]. split.
  - exact (proj1 (Run_params_fixed cli_test.pair_rule ["a"] 2
                    eq_refl eq_refl ltac:(lia))).
  - exact (proj2 (Run_params_fixed cli_test.pair_rule ["a"; "b"] 2
                    eq_refl eq_refl ltac:(lia)) ["c"] ltac:(simpl; lia)).
Defined.

Lemma Run_params_slice_witness :
  Run_params cli_test.full_rule ["bob"]
  = Ret [ValueOf_command cli_test.runFull;
         reflect.ValueOf_string "bob"; reflect.ValueOf_string EmptyString;
         reflect.Val strings_type (reflect.Strs [])].
Proof.
  exact (proj1 (Run_params_slice cli_test.full_rule ["bob"] 2 eq_refl eq_refl)).
Defined.

(** ** Dispatch: the call *)

Lemma AssignableTo_refl (t : reflect.rtype) : reflect.AssignableTo t t = true.
Proof. unfold reflect.AssignableTo. rewrite bool_decide_true; reflexivity. Qed.

Lemma all_assignable_strings (l : list string) (rest : list reflect.Value)
    (ts : list reflect.rtype) :
  reflect.all_assignable ((reflect.ValueOf_string <$> l) ++ rest)
    (replicate (length l) reflect.TypeOf_string ++ ts)
  = reflect.all_assignable rest ts.
Proof.
  induction l as [|x l IH]; [reflexivity|]. simpl. exact IH.
Qed.

Lemma forallb_IsValid_strings (l : list string) (rest : list reflect.Value) :
  forallb reflect.IsValid ((reflect.ValueOf_string <$> l) ++ rest)
  = forallb reflect.IsValid rest.
Proof. induction l as [|x l IH]; [reflexivity|]. simpl. exact IH. Qed.

Lemma final_param_assignable (slice : bool) (N : nat) (args : list string) :
  (slice = false -> (1 <= N)%nat) ->
  reflect.Value_assignable (final_param slice (Z.of_nat N + 2) args)
    (if slice then strings_type else reflect.TypeOf_string) = true.
Proof.
  intros HN. unfold final_param. destruct slice; [apply AssignableTo_refl|].
  specialize (HN eq_refl).
  destruct (Z.ltb_spec 1 (Z.of_nat N + 2 - 1)); [|lia]. apply AssignableTo_refl.
Qed.

(** The call of a method that is not variadic and takes [N] strings
    and a last parameter, on the handler, [N] strings and a value
    assignable to the last parameter, is the body of the method on
    the arguments after the handler. *)
Lemma Call_strings (recv : reflect.rtype) (d : method_decl) (l : list string)
    (final : reflect.rtype) (v : reflect.Value) :
  decl_variadic d = false ->
  decl_params d = strings_then (length l) final ->
  reflect.Value_assignable v final = true ->
  reflect.Call (method_of recv d)
    (reflect.Val recv reflect.Opaque :: (reflect.ValueOf_string <$> l) ++ [v])
  = decl_body d ((reflect.ValueOf_string <$> l) ++ [v]).
Proof.
  intros Hvar Hparams Hv. unfold reflect.Call. simpl reflect.Method_Type.
  simpl reflect.IsVariadic. rewrite Hvar.
  assert (reflect.NumIn {| reflect.ins := recv :: decl_params d;
                           reflect.outs := decl_results d;
                           reflect.IsVariadic := false |}
          = Z.of_nat (length l) + 2) as Hn.
  { unfold reflect.NumIn, len. simpl. rewrite Hparams. unfold strings_then.
    rewrite length_app, length_replicate. simpl. lia. }
  rewrite Hn.
  assert (len (reflect.Val recv reflect.Opaque
               :: (reflect.ValueOf_string <$> l) ++ [v])
          = Z.of_nat (length l) + 2) as Hlen.
  { unfold len. simpl. rewrite length_app, length_fmap. simpl. lia. }
  rewrite Hlen.
  destruct (Z.ltb_spec (Z.of_nat (length l) + 2) (Z.of_nat (length l) + 2));
    [lia|]. simpl negb. cbv iota.
  rewrite andb_true_l.
  destruct (Z.ltb_spec (Z.of_nat (length l) + 2) (Z.of_nat (length l) + 2));
    [lia|].
  assert (reflect.IsValid v = true) as Hvalid by (destruct v; [discriminate|reflexivity]).
  simpl forallb. rewrite forallb_IsValid_strings. simpl forallb.
  rewrite Hvalid. simpl negb. cbv iota.
  rewrite take_ge by (unfold len in Hlen; lia).
  simpl reflect.ins. rewrite Hparams. unfold strings_then. simpl reflect.all_assignable.
  rewrite AssignableTo_refl, all_assignable_strings. simpl.
  rewrite Hv. reflexivity.
Qed.

(** X11. [Run] calls the method once, with what it bound. For a
    rule whose method is not variadic and takes [N] strings and then
    a slice of strings (a slice rule) or one more string (not a
    slice rule, [N] at least 1), the process is the body of the
    method applied to the first [N] tokens, padded with empty
    strings, and the last parameter; then the output of the body;
    then the exit with the code taken from the results. A panic of
    the body is a panic of the process. *)
Theorem Run_calls_handler
    (Parse : flag.FlagSet -> list string -> option flag.FlagSet)
    (range : gmap string rule -> list rule)
    (a : application) (CommandLine cl options : flag.FlagSet)
    (osArgs rest : list string) (name : string) (r : rule)
    (d : method_decl) (N : nat) (s : streams) :
  Parse CommandLine osArgs = Some cl ->
  flag.Args cl = name :: rest ->
  rules a !! name = Some r ->
  Parse (rule_options r) rest = Some options ->
  rule_method r = method_of (TypeOf (rule_command r)) d ->
  decl_variadic d = false ->
  decl_params d
  = strings_then N (if rule_slice r then strings_type else reflect.TypeOf_string) ->
  (rule_slice r = false -> (1 <= N)%nat) ->
  run (Run Parse range a CommandLine osArgs) s
  = match decl_body d
            ((reflect.ValueOf_string <$> padded N (flag.Args options))
             ++ [final_param (rule_slice r) (Z.of_nat N + 2) (flag.Args options)])
    with
    | Panic msg => Stop (Panicked msg) s
    | Ret (effects, rv) =>
        match run (for_each effects (perform range a)) s with
        | Stop e s' => Stop e s'
        | Next _ s' =>
            match exit_code rv with
            | Ret code => Stop (Exit code) s'
            | Panic msg => Stop (Panicked msg) s'
            end
        end
    end.
Proof.
  intros Hcl Hargs Hr Hopt Hmethod Hvar Hparams HN.
  rewrite (Run_dispatch Parse range a CommandLine cl options osArgs rest name r s
             Hcl Hargs Hr Hopt).
  unfold dispatch. rewrite run_bind.
  rewrite (Run_params_list r (flag.Args options) N).
  2:{ rewrite Hmethod. unfold reflect.NumIn, len. simpl. rewrite Hparams.
      unfold strings_then. rewrite length_app, length_replicate. simpl. lia. }
  rewrite run_lift_Ret, run_bind. rewrite Hmethod at 1.
  unfold ValueOf_command.
  pose proof (Call_strings (TypeOf (rule_command r)) d
                (padded N (flag.Args options))
                (if rule_slice r then strings_type else reflect.TypeOf_string)
                (final_param (rule_slice r) (Z.of_nat N + 2) (flag.Args options))
                Hvar) as Hcall.
  rewrite length_padded in Hcall.
  rewrite (Hcall Hparams (final_param_assignable _ N _ HN)).
  destruct (decl_body d _) as [[effects rv]|msg]; [|reflexivity].
  rewrite run_lift_Ret. cbv beta iota. rewrite run_bind.
  destruct (run (for_each effects (perform range a)) s) as [[] s'|e s'];
    [|reflexivity].
  rewrite run_bind. destruct (exit_code rv); reflexivity.
Qed.

Lemma Run_calls_handler_witness :
  run (Run cli_test.Parse_plain cli_test.range_keys cli_test.pair_app
         cli_test.CommandLine ["pair"; "k"; "v"; "x"]) no_streams
  = Stop (Exit 0) {| stdout := "k => v" ++ nl; stderr := EmptyString |}.
Proof.
  exact (Run_calls_handler cli_test.Parse_plain cli_test.range_keys
           cli_test.pair_app cli_test.CommandLine _ _
           ["pair"; "k"; "v"; "x"] ["k"; "v"; "x"] "pair" cli_test.pair_rule
           _ 1 no_streams eq_refl eq_refl eq_refl eq_refl eq_refl eq_refl eq_refl
           (fun _ => le_n 1)).
Defined.

Lemma Call_variadic (recv : reflect.rtype) (d : method_decl) (l : list string)
    (dd : reflect.data) :
  decl_variadic d = true ->
  decl_params d = strings_then (length l) strings_type ->
  reflect.Call (method_of recv d)
    (reflect.Val recv reflect.Opaque
     :: (reflect.ValueOf_string <$> l) ++ [reflect.Val strings_type dd])
  = Panic "reflect: cannot use argument as element type in Call".
Proof.
  intros Hvar Hparams. unfold reflect.Call. simpl reflect.Method_Type.
  simpl reflect.IsVariadic. rewrite Hvar.
  set (t := {| reflect.ins := recv :: decl_params d;
               reflect.outs := decl_results d;
               reflect.IsVariadic := true |}).
  assert (reflect.ins t
          = recv :: replicate (length l) reflect.TypeOf_string ++ [strings_type])
    as Hins by (unfold t; simpl; rewrite Hparams; reflexivity).
  assert (reflect.NumIn t = Z.of_nat (length l) + 2) as Hn.
  { unfold reflect.NumIn, len. rewrite Hins. simpl.
    rewrite length_app, length_replicate. simpl. lia. }
  rewrite Hn.
  set (in_ := reflect.Val recv reflect.Opaque
              :: (reflect.ValueOf_string <$> l)
              ++ [reflect.Val strings_type dd]).
  assert (len in_ = Z.of_nat (length l) + 2) as Hlen.
  { unfold len, in_. simpl. rewrite length_app, length_fmap. simpl. lia. }
  rewrite Hlen.
  destruct (Z.ltb_spec (Z.of_nat (length l) + 2) (Z.of_nat (length l) + 2 - 1));
    [lia|]. cbn [negb andb].
  assert (forallb reflect.IsValid in_ = true) as ->.
  { unfold in_. simpl. rewrite forallb_IsValid_strings. reflexivity. }
  cbn [negb].
  replace (Z.to_nat (Z.of_nat (length l) + 2 - 1)) with (S (length l)) by lia.
  assert (take (S (length l)) in_
          = reflect.Val recv reflect.Opaque
            :: (reflect.ValueOf_string <$> l) ++ []) as ->.
  { unfold in_. simpl. f_equal. rewrite app_nil_r.
    rewrite <- (length_fmap reflect.ValueOf_string l) at 1.
    apply take_app_length. }
  rewrite Hins. simpl reflect.all_assignable.
  rewrite AssignableTo_refl, all_assignable_strings. simpl.
  assert (reflect.In t (Z.of_nat (length l) + 2 - 1) = Ret strings_type) as ->.
  { destruct (In_Ret t (Z.of_nat (length l) + 2 - 1)) as (ty & -> & Hty); [lia|].
    rewrite Hins in Hty.
    replace (Z.to_nat (Z.of_nat (length l) + 2 - 1)) with (S (length l)) in Hty
      by lia.
    simpl in Hty. rewrite lookup_app_r in Hty by (rewrite length_replicate; lia).
    rewrite length_replicate, Nat.sub_diag in Hty. simpl in Hty.
    injection Hty as <-. reflexivity. }
  rewrite bind_Ret. simpl reflect.Type_Elem. rewrite bind_Ret.
  rewrite <- (length_fmap reflect.ValueOf_string l) at 1.
  rewrite drop_app_length. reflexivity.
Qed.

(** X12. A method whose last parameter is written in the variadic
    form, after [N] strings, passes registration as a slice rule but
    cannot be dispatched: whatever the tokens, the call panics
    before the body of the method runs, since [Call] wants one value
    per variadic argument and gets the one slice [Run] built. *)
Theorem Run_variadic_panics
    (Parse : flag.FlagSet -> list string -> option flag.FlagSet)
    (range : gmap string rule -> list rule)
    (a : application) (CommandLine cl options : flag.FlagSet)
    (osArgs rest : list string) (name : string) (r : rule)
    (d : method_decl) (N : nat) (s : streams) :
  Parse CommandLine osArgs = Some cl ->
  flag.Args cl = name :: rest ->
  rules a !! name = Some r ->
  Parse (rule_options r) rest = Some options ->
  rule_method r = method_of (TypeOf (rule_command r)) d ->
  rule_slice r = true ->
  decl_variadic d = true ->
  decl_params d = strings_then N strings_type ->
  run (Run Parse range a CommandLine osArgs) s
  = Stop (Panicked "reflect: cannot use argument as element type in Call") s.
Proof.
  intros Hcl Hargs Hr Hopt Hmethod Hslice Hvar Hparams.
  rewrite (Run_dispatch Parse range a CommandLine cl options osArgs rest name r s
             Hcl Hargs Hr Hopt).
  unfold dispatch. rewrite run_bind.
  rewrite (Run_params_list r (flag.Args options) N).
  2:{ rewrite Hmethod. unfold reflect.NumIn, len. simpl. rewrite Hparams.
      unfold strings_then. rewrite length_app, length_replicate. simpl. lia. }
  rewrite run_lift_Ret, run_bind. rewrite Hmethod at 1.
  unfold ValueOf_command. rewrite Hslice. unfold final_param.
  pose proof (Call_variadic (TypeOf (rule_command r)) d
                (padded N (flag.Args options))
                (reflect.Strs (drop (Z.to_nat (Z.of_nat N + 2 - 2))
                                 (flag.Args options)))
                Hvar) as Hcall.
  rewrite length_padded in Hcall. rewrite (Hcall Hparams). reflexivity.
Qed.

Lemma Run_variadic_panics_witness :
  exists app evs,
    Rule cli_test.bare cli_test.runVariadic "all" "[<args>]"
    = Ret (app, evs, None)
    /\ run (Run cli_test.Parse_plain cli_test.range_keys app
              cli_test.CommandLine ["all"; "x"]) no_streams
       = Stop (Panicked "reflect: cannot use argument as element type in Call")
              no_streams.
Proof.
  eexists _, _. split; [reflexivity|].
  eapply (Run_variadic_panics cli_test.Parse_plain cli_test.range_keys _
            cli_test.CommandLine _ _ ["all"; "x"] ["x"] "all" _ _ 0 no_streams);
    reflexivity.
Defined.

(** ** The built-in commands *)

Lemma registered_method (r : rule) :
  registered r ->
  MethodByName (rule_command r) "Run" = Some (rule_method r)
  /\ final_shape (reflect.Method_Type (rule_method r))
       (reflect.NumIn (reflect.Method_Type (rule_method r)))
     = Ret (Some (rule_slice r)).
Proof.
  intros (a & c & name & arguments & a' & evs & HR & Hr).
  apply Rule_success in HR
    as (method & slice & options & Hm & _ & Hshape & _ & _ & _ & ->).
  simpl in Hr. rewrite lookup_insert_eq in Hr. injection Hr as <-. simpl.
  split; assumption.
Qed.

Lemma Run_params_receiver_only (r : rule) (args : list string) :
  rule_slice r = false ->
  reflect.NumIn (reflect.Method_Type (rule_method r)) = 1 ->
  Run_params r args = Ret [ValueOf_command (rule_command r)].
Proof.
  intros Hs Hn.
  destruct (Run_params_spec r args) as (params & -> & Hlen & Hrecv & _ & _);
    [lia|congruence|]. f_equal.
  rewrite Hn in Hlen. unfold len in Hlen.
  destruct params as [|v0 [|v1 params]]; simpl in Hlen; try lia.
  simpl in Hrecv. congruence.
Qed.

(** A registered rule that holds a handler without parameters gets
    the handler alone at dispatch, whatever the tokens. *)
Lemma dispatch_no_parameter (range : gmap string rule -> list rule)
    (a : application) (r : rule) (method : reflect.Method)
    (args : list string) (s : streams) :
  registered r ->
  MethodByName (rule_command r) "Run" = Some method ->
  reflect.NumIn (reflect.Method_Type method) = 1 ->
  run (dispatch range a r args) s
  = run ('(effects, rv) ← lift (reflect.Call method
                                  [ValueOf_command (rule_command r)]);
         _ ← for_each effects (perform range a);
         code ← lift (exit_code rv);
         os_Exit code) s.
Proof.
  intros Hreg Hm Hn. destruct (registered_method r Hreg) as [Hm' Hshape].
  assert (rule_method r = method) as Heq by congruence. rewrite Heq in Hshape.
  assert (rule_slice r = false) as Hslice.
  { unfold final_shape in Hshape. rewrite Hn in Hshape. simpl in Hshape.
    congruence. }
  unfold dispatch. rewrite run_bind, Run_params_receiver_only, run_lift_Ret;
    [|exact Hslice|rewrite Heq; exact Hn].
  rewrite Heq. reflexivity.
Qed.

(** X13. In an application whose keys agree with its rules, a name
    that leads to the version handler prints the name of the
    application, a space, the letter v, the version and a newline on
    standard output, and exits with code 0; the tokens after the
    name play no part. *)
Theorem version_prints_and_exits
    (Parse : flag.FlagSet -> list string -> option flag.FlagSet)
    (range : gmap string rule -> list rule)
    (a : application) (CommandLine cl options : flag.FlagSet)
    (osArgs rest : list string) (cmd name version : string) (r : rule)
    (s : streams) :
  names_agree a ->
  Parse CommandLine osArgs = Some cl ->
  flag.Args cl = cmd :: rest ->
  rules a !! cmd = Some r ->
  rule_command r = commandVersion name version ->
  Parse (rule_options r) rest = Some options ->
  run (Run Parse range a CommandLine osArgs) s
  = Stop (Exit 0) (written os_Stdout (name ++ " v" ++ version ++ nl) s).
Proof.
  intros Ha Hcl Hargs Hr Hc Hopt.
  rewrite (Run_dispatch Parse range a CommandLine cl options osArgs rest cmd r s
             Hcl Hargs Hr Hopt).
  destruct (Ha cmd r Hr) as [_ Hreg].
  rewrite (dispatch_no_parameter range a r
             (method_of (TypeOf (commandVersion name version))
                {| decl_name := "Run"; decl_params := [];
                   decl_variadic := false; decl_results := [];
                   decl_body := fun _ =>
                     Ret ([Stdout (name ++ " v" ++ version ++ nl)], []) |})
             _ s Hreg);
    [|rewrite Hc; reflexivity|reflexivity].
  rewrite Hc. reflexivity.
Qed.

Lemma version_prints_and_exits_witness :
  exists app,
    New "myapp" "0.0.1" = Ret app
    /\ run (Run cli_test.Parse_plain cli_test.range_keys app
              cli_test.CommandLine ["version"; "now"]) no_streams
       = Stop (Exit 0) {| stdout := "myapp v0.0.1" ++ nl;
                          stderr := EmptyString |}.
Proof.
  eexists. split; [apply New_two_rules|].
  eapply (version_prints_and_exits cli_test.Parse_plain cli_test.range_keys _
            cli_test.CommandLine _ _ ["version"; "now"] ["now"] "version"
            "myapp" "0.0.1" _ no_streams).
  - apply (New_names_agree "myapp" "0.0.1"). apply New_two_rules.
  - reflexivity.
  - reflexivity.
  - reflexivity.
  - reflexivity.
  - reflexivity.
Defined.

(** X14. In an application whose keys agree with its rules, a name
    that leads to the help handler prints the usage of the whole
    application on standard error and exits with code 0; the tokens
    after the name play no part. Should the usage printer stop the
    process, the process stops the same way. *)
Theorem help_prints_usage_and_exits
    (Parse : flag.FlagSet -> list string -> option flag.FlagSet)
    (range : gmap string rule -> list rule)
    (a : application) (CommandLine cl options : flag.FlagSet)
    (osArgs rest : list string) (cmd : string) (r : rule) (s : streams) :
  names_agree a ->
  Parse CommandLine osArgs = Some cl ->
  flag.Args cl = cmd :: rest ->
  rules a !! cmd = Some r ->
  rule_command r = commandHelp ->
  Parse (rule_options r) rest = Some options ->
  run (Run Parse range a CommandLine osArgs) s
  = match run (printUsage range a os_Stderr) s with
    | Next _ s' => Stop (Exit 0) s'
    | Stop e s' => Stop e s'
    end.
Proof.
  intros Ha Hcl Hargs Hr Hc Hopt.
  rewrite (Run_dispatch Parse range a CommandLine cl options osArgs rest cmd r s
             Hcl Hargs Hr Hopt).
  destruct (Ha cmd r Hr) as [_ Hreg].
  rewrite (dispatch_no_parameter range a r
             (method_of (TypeOf commandHelp)
                {| decl_name := "Run"; decl_params := [];
                   decl_variadic := false; decl_results := [];
                   decl_body := fun _ => Ret ([CallUsage], []) |})
             _ s Hreg);
    [|rewrite Hc; reflexivity|reflexivity].
  rewrite Hc.
  change (reflect.Call _ [ValueOf_command commandHelp])
    with (@Ret (list effect * list reflect.Value) ([CallUsage], [])).
  rewrite run_bind, run_lift_Ret. cbv beta iota. rewrite run_bind.
  change (for_each [CallUsage] (perform range a))
    with (printUsage range a os_Stderr ≫= fun _ : unit => mret tt).
  rewrite run_bind.
  destruct (run (printUsage range a os_Stderr) s) as [[] s'|e s']; reflexivity.
Qed.

Lemma help_prints_usage_and_exits_witness :
  exists app,
    New "myapp" "0.0.1" = Ret app
    /\ run (Run cli_test.Parse_plain cli_test.range_keys app
              cli_test.CommandLine ["help"]) no_streams
       = Stop (Exit 0)
           {| stdout := EmptyString;
              stderr := "Usage: myapp <cmd> [options] [<args>]" ++ nl
                        ++ "  version   Output the application version." ++ nl
                        ++ "  help      Output this usage information." ++ nl
                        ++ nl |}.
Proof.
  eexists. split; [apply New_two_rules|].
  refine (eq_trans
            (help_prints_usage_and_exits cli_test.Parse_plain cli_test.range_keys _
               cli_test.CommandLine _ _ ["help"] [] "help" _ no_streams
               (New_names_agree "myapp" "0.0.1" _ (New_two_rules _ _))
               eq_refl eq_refl eq_refl eq_refl eq_refl) _).
  vm_compute. reflexivity.
Defined.

(** ** Usage: the column and the lines *)

Lemma longest_spec (l : list rule) :
  forall init,
    let longest :=
      foldl (fun max rule =>
               let length := len_string (rule_String rule) in
               if max <? length then length else max) init l in
    init <= longest
    /\ (forall r, r ∈ l -> len_string (rule_String r) <= longest)
    /\ (longest = init
        \/ exists r, r ∈ l /\ longest = len_string (rule_String r)).
Proof.
  induction l as [|x l IH]; intros init; cbv zeta; simpl.
  - split; [lia|]. split; [|left; reflexivity]. intros r Hr. inversion Hr.
  - specialize (IH (if init <? len_string (rule_String x)
                    then len_string (rule_String x) else init)).
    cbv zeta in IH. destruct IH as (Hge & Hall & Hatt).
    destruct (Z.ltb_spec init (len_string (rule_String x))) as [Hlt|Hle].
    + split; [lia|]. split.
      * intros r Hr. apply elem_of_cons in Hr as [->|Hr]; [exact Hge|auto].
      * right. destruct Hatt as [->|(r & Hr & ->)].
        -- exists x. split; [left|reflexivity].
        -- exists r. split; [right; exact Hr|reflexivity].
    + split; [exact Hge|]. split.
      * intros r Hr. apply elem_of_cons in Hr as [->|Hr]; [lia|auto].
      * destruct Hatt as [->|(r & Hr & ->)]; [left; reflexivity|right].
        exists r. split; [right; exact Hr|reflexivity].
Qed.

Lemma getRuleLength_covers (range : gmap string rule -> list rule)
    (a : application) (r : rule) :
  r ∈ range (rules a) ->
  len_string (rule_String r) + 3 <= getRuleLength range a.
Proof.
  intros Hr. unfold getRuleLength.
  pose proof (longest_spec (range (rules a)) 0) as H. cbv zeta in H |- *.
  destruct H as (_ & Hall & _). specialize (Hall r Hr). lia.
Qed.

(** X15. [getRuleLength] is three more than the length of the
    longest rule text among the rules visited, and three when they
    are all empty or there is none: it is at least 3, at least
    three more than the length of every rule text, and one of the
    two is reached. *)
Theorem getRuleLength_longest (range : gmap string rule -> list rule)
    (a : application) :
  3 <= getRuleLength range a
  /\ (forall r, r ∈ range (rules a) ->
                len_string (rule_String r) + 3 <= getRuleLength range a)
  /\ (getRuleLength range a = 3
      \/ exists r, r ∈ range (rules a)
                   /\ getRuleLength range a = len_string (rule_String r) + 3).
Proof.
  split; [|split].
  - unfold getRuleLength.
    pose proof (longest_spec (range (rules a)) 0) as H. cbv zeta in H |- *.
    destruct H as (Hge & _ & _). lia.
  - intros r. apply getRuleLength_covers.
  - unfold getRuleLength.
    pose proof (longest_spec (range (rules a)) 0) as H. cbv zeta in H |- *.
    destruct H as (_ & _ & [->|(r & Hr & ->)]).
    + left. reflexivity.
    + right. exists r. split; [exact Hr|reflexivity].
Qed.

Lemma for_each_cons {A : Type} (x : A) (l : list A) (body : A -> proc unit)
    (s : streams) :
  run (for_each (x :: l) body) s
  = match run (body x) s with
    | Next _ s' => run (for_each l body) s'
    | Stop e s' => Stop e s'
    end.
Proof. reflexivity. Qed.

(** A loop whose bodies all go on goes on. *)
Lemma for_each_Next {A : Type} (l : list A) (body : A -> proc unit) :
  (forall x, x ∈ l -> forall s, exists s', run (body x) s = Next tt s') ->
  forall s, exists s', run (for_each l body) s = Next tt s'.
Proof.
  induction l as [|x l IH]; intros Hbody s.
  - exists s. reflexivity.
  - rewrite for_each_cons.
    destruct (Hbody x ltac:(left) s) as [s1 ->].
    apply IH. intros y Hy. apply Hbody. right. exact Hy.
Qed.

(** A loop whose bodies go on or stop in one way, with a body that
    stops, stops in that way. *)
Lemma for_each_Stop {A : Type} (l : list A) (body : A -> proc unit)
    (e : ending) (x0 : A) :
  x0 ∈ l ->
  (forall x, x ∈ l -> forall s,
     (exists s', run (body x) s = Next tt s')
     \/ (exists s', run (body x) s = Stop e s')) ->
  (forall s, exists s', run (body x0) s = Stop e s') ->
  forall s, exists s', run (for_each l body) s = Stop e s'.
Proof.
  induction l as [|x l IH]; intros Hin Hbody Hstop s; [inversion Hin|].
  rewrite for_each_cons.
  apply elem_of_cons in Hin as [<-|Hin].
  - destruct (Hstop s) as [s1 ->]. eauto.
  - destruct (Hbody x ltac:(left) s) as [[s1 ->]|[s1 ->]]; [|eauto].
    apply IH; [exact Hin| |exact Hstop].
    intros y Hy. apply Hbody. right. exact Hy.
Qed.

Lemma for_each_Next_or_Stop {A : Type} (l : list A) (body : A -> proc unit)
    (e : ending) :
  (forall x, x ∈ l -> forall s,
     (exists s', run (body x) s = Next tt s')
     \/ (exists s', run (body x) s = Stop e s')) ->
  forall s, (exists s', run (for_each l body) s = Next tt s')
            \/ (exists s', run (for_each l body) s = Stop e s').
Proof.
  induction l as [|x l IH]; intros Hbody s; [left; exists s; reflexivity|].
  rewrite for_each_cons.
  destruct (Hbody x ltac:(left) s) as [[s1 ->]|[s1 ->]]; [|right; eauto].
  apply IH. intros y Hy. apply Hbody. right. exact Hy.
Qed.

Lemma visit_run (w : Writer) (length : Z) (fl : flag.Flag) (s : streams) :
  run (visit w length fl) s
  = if length - len_string (flag_option fl) - 2 <? 0
    then Stop (Panicked "strings: negative Repeat count") s
    else Next tt (written w
                    ("    " ++ flag_option fl
                     ++ gostrings.repeat_string " "
                          (Z.to_nat (length - len_string (flag_option fl) - 2))
                     ++ flag.Usage fl ++ nl) s).
Proof.
  unfold visit. rewrite run_bind. unfold gostrings.Repeat.
  destruct (length - len_string (flag_option fl) - 2 <? 0); [reflexivity|].
  rewrite run_lift_Ret. destruct w; reflexivity.
Qed.

(** The lines of one rule in the usage: the line of the rule is
    always written; the lines of its flags follow. *)
Lemma rule_lines_run (range : gmap string rule -> list rule)
    (a : application) (w : Writer) (r : rule) (s : streams) :
  r ∈ range (rules a) ->
  exists s1,
    run (spaces ← lift (gostrings.Repeat " "
                          (getRuleLength range a - len_string (rule_String r)));
         _ ← Fprintf w ("  " ++ rule_String r ++ spaces
                        ++ command_String (rule_command r) ++ nl);
         for_each (flag.VisitAll (rule_options r))
           (visit w (getRuleLength range a))) s
    = run (for_each (flag.VisitAll (rule_options r))
             (visit w (getRuleLength range a))) s1.
Proof.
  intros Hr. pose proof (getRuleLength_covers range a r Hr) as Hcov.
  rewrite run_bind. unfold gostrings.Repeat.
  destruct (Z.ltb_spec (getRuleLength range a - len_string (rule_String r)) 0);
    [lia|].
  rewrite run_lift_Ret, run_bind. eexists. reflexivity.
Qed.

(** X16. [printUsage] writes the whole usage when every flag line
    fits the column of [getRuleLength], that is when each option
    text is at most two characters shorter than the column; with one
    flag whose option text is longer, it panics with a negative
    repeat count before the usage is complete. The line of a rule
    itself never makes it panic. *)
Theorem printUsage_completes (range : gmap string rule -> list rule)
    (a : application) (w : Writer) (s : streams) :
  (flags_fit range a ->
   exists s', run (printUsage range a w) s = Next tt s')
  /\ (forall r fl,
        r ∈ range (rules a) ->
        fl ∈ flag.VisitAll (rule_options r) ->
        getRuleLength range a < len_string (flag_option fl) + 2 ->
        exists s', run (printUsage range a w) s
                   = Stop (Panicked "strings: negative Repeat count") s').
Proof.
  assert (forall fl s0,
            (exists s', run (visit w (getRuleLength range a) fl) s0 = Next tt s')
            \/ (exists s', run (visit w (getRuleLength range a) fl) s0
                           = Stop (Panicked "strings: negative Repeat count") s'))
    as Hvisit.
  { intros fl s0. rewrite visit_run.
    destruct (getRuleLength range a - len_string (flag_option fl) - 2 <? 0);
      [right|left]; eauto. }
  split.
  - intros Hfit. unfold printUsage. rewrite run_bind.
    change (run (Fprintf w ?t) s) with (Next tt (written w t s)). cbv iota beta.
    rewrite run_bind.
    destruct (for_each_Next (range (rules a))
                (fun rule =>
                   spaces ← lift (gostrings.Repeat " "
                                    (getRuleLength range a
                                     - len_string (rule_String rule)));
                   _ ← Fprintf w ("  " ++ rule_String rule ++ spaces
                                  ++ command_String (rule_command rule) ++ nl);
                   for_each (flag.VisitAll (rule_options rule))
                     (visit w (getRuleLength range a))))
      with (s := written w ("Usage: " ++ app_name a
                            ++ " <cmd> [options] [<args>]" ++ nl) s)
      as [s1 Hs1].
    + intros r Hr s0.
      destruct (rule_lines_run range a w r s0 Hr) as [s1 ->].
      apply for_each_Next. intros fl Hfl s2. rewrite visit_run.
      specialize (Hfit r fl Hr Hfl).
      destruct (Z.ltb_spec (getRuleLength range a
                            - len_string (flag_option fl) - 2) 0); [lia|].
      eauto.
    + rewrite Hs1. eexists. reflexivity.
  - intros r fl Hr Hfl Hlong. unfold printUsage. rewrite run_bind.
    change (run (Fprintf w ?t) s) with (Next tt (written w t s)). cbv iota beta.
    rewrite run_bind.
    destruct (for_each_Stop (range (rules a))
                (fun rule =>
                   spaces ← lift (gostrings.Repeat " "
                                    (getRuleLength range a
                                     - len_string (rule_String rule)));
                   _ ← Fprintf w ("  " ++ rule_String rule ++ spaces
                                  ++ command_String (rule_command rule) ++ nl);
                   for_each (flag.VisitAll (rule_options rule))
                     (visit w (getRuleLength range a)))
                (Panicked "strings: negative Repeat count") r Hr)
      with (s := written w ("Usage: " ++ app_name a
                            ++ " <cmd> [options] [<args>]" ++ nl) s)
      as [s1 Hs1].
    + intros r' Hr' s0.
      destruct (rule_lines_run range a w r' s0 Hr') as [s1 ->].
      apply for_each_Next_or_Stop. intros fl' _ s2. apply Hvisit.
    + intros s0. destruct (rule_lines_run range a w r s0 Hr) as [s1 ->].
      apply (for_each_Stop _ _ _ fl Hfl).
      * intros fl' _ s2. apply Hvisit.
      * intros s2. rewrite visit_run.
        destruct (Z.ltb_spec (getRuleLength range a
                              - len_string (flag_option fl) - 2) 0); [|lia].
        eauto.
    + rewrite Hs1. eexists. reflexivity.
Qed.

Lemma printUsage_completes_witness :
  exists app evs s',
    Rule cli_test.bare cli_test.runVerbose "v" EmptyString = Ret (app, evs, None)
    /\ run (printUsage cli_test.range_keys app os_Stderr) no_streams
       = Stop (Panicked "strings: negative Repeat count") s'.
Proof.
  eexists _, _. 
  assert (exists s',
            run (printUsage cli_test.range_keys
                   (with_rule cli_test.bare "v"
                      (stored_rule cli_test.runVerbose
                         (method_of (TypeOf cli_test.runVerbose)
                            (hd (Build_method_decl EmptyString [] false []
                                   (fun _ => Ret ([], [])))
                                (methods cli_test.runVerbose)))
                         false "v"
                         {| flag.name := "v";
                            flag.errorHandling := flag.ExitOnError;
                            flag.formal :=
                              [ {| flag.Name := "verbose";
                                   flag.Usage := "say more";
                                   flag.Value_ := flag.boolValue true;
                                   flag.DefValue := "true" |} ];
                            flag.args := [] |}
                         EmptyString))
                   os_Stderr) no_streams
            = Stop (Panicked "strings: negative Repeat count") s') as [s' Hs'].
  { eapply (proj2 (printUsage_completes cli_test.range_keys _ os_Stderr
                     no_streams)).
    - vm_compute. left.
    - vm_compute. left.
    - vm_compute. reflexivity. }
  exists s'. split; [reflexivity|exact Hs'].
Defined.

(** ** Dispatch: two signatures that register and cannot be called *)

Lemma Call_zero_second (m : reflect.Method) (v : reflect.Value) :
  reflect.NumIn (reflect.Method_Type m) = 2 ->
  reflect.Call m [v; reflect.ZeroValue]
  = Panic "reflect: Call using zero Value argument".
Proof.
  intros Hn. unfold reflect.Call. rewrite Hn.
  destruct (reflect.IsVariadic (reflect.Method_Type m)); simpl;
    rewrite andb_false_r; reflexivity.
Qed.

(** X17. A rule that is not a slice rule and whose method has one
    parameter cannot be dispatched: whatever the tokens, [Run] leaves
    the parameter unset and the call panics before the body of the
    method runs. *)
Theorem Run_single_string_panics
    (Parse : flag.FlagSet -> list string -> option flag.FlagSet)
    (range : gmap string rule -> list rule)
    (a : application) (CommandLine cl options : flag.FlagSet)
    (osArgs rest : list string) (name : string) (r : rule) (s : streams) :
  Parse CommandLine osArgs = Some cl ->
  flag.Args cl = name :: rest ->
  rules a !! name = Some r ->
  Parse (rule_options r) rest = Some options ->
  rule_slice r = false ->
  reflect.NumIn (reflect.Method_Type (rule_method r)) = 2 ->
  run (Run Parse range a CommandLine osArgs) s
  = Stop (Panicked "reflect: Call using zero Value argument") s.
Proof.
  intros Hcl Hargs Hr Hopt Hslice Hn.
  rewrite (Run_dispatch Parse range a CommandLine cl options osArgs rest name r s
             Hcl Hargs Hr Hopt).
  unfold dispatch.
  rewrite run_bind, (Run_params_single_string r _ Hslice Hn), run_lift_Ret.
  rewrite run_bind, (Call_zero_second _ _ Hn). reflexivity.
Qed.

Lemma Run_single_string_panics_witness :
  exists app evs,
    Rule cli_test.bare cli_test.runOne "one" "<arg>" = Ret (app, evs, None)
    /\ run (Run cli_test.Parse_plain cli_test.range_keys app
              cli_test.CommandLine ["one"]) no_streams
       = Stop (Panicked "reflect: Call using zero Value argument") no_streams.
Proof.
  eexists _, _. split; [reflexivity|].
  eapply (Run_single_string_panics cli_test.Parse_plain cli_test.range_keys _
            cli_test.CommandLine _ _ ["one"] [] "one" _ no_streams);
    reflexivity.
Defined.

Lemma all_assignable_false (i : nat) :
  forall (xs : list reflect.Value) (ts : list reflect.rtype)
         (x : reflect.Value) (t : reflect.rtype),
    xs !! i = Some x -> ts !! i = Some t ->
    reflect.Value_assignable x t = false ->
    reflect.all_assignable xs ts = false.
Proof.
  induction i as [|i IH]; intros [|x0 xs] [|t0 ts] x t Hx Ht Hno;
    try discriminate; simpl in *.
  - injection Hx as ->. injection Ht as ->. rewrite Hno. reflexivity.
  - rewrite (IH xs ts x t Hx Ht Hno). apply andb_false_r.
Qed.

Lemma final_param_valid (slice : bool) (N : nat) (args : list string) :
  (1 <= N)%nat ->
  reflect.IsValid (final_param slice (Z.of_nat N + 2) args) = true.
Proof.
  intros HN. unfold final_param. destruct slice; [reflexivity|].
  destruct (Z.ltb_spec 1 (Z.of_nat N + 2 - 1)); [reflexivity|lia].
Qed.

(** X18. A parameter before the last whose type is a defined type
    over string ([type Key string]) passes the checks of [Rule], which
    go by kind, but the rule cannot be dispatched: [Run] binds a
    plain string to it, which is not assignable to the defined type,
    and the call panics before the body of the method runs. *)
Theorem Run_defined_string_panics
    (Parse : flag.FlagSet -> list string -> option flag.FlagSet)
    (range : gmap string rule -> list rule)
    (a : application) (CommandLine cl options : flag.FlagSet)
    (osArgs rest : list string) (name : string) (r : rule)
    (N i : nat) (key : string) (u : reflect.rtype) (s : streams) :
  Parse CommandLine osArgs = Some cl ->
  flag.Args cl = name :: rest ->
  rules a !! name = Some r ->
  Parse (rule_options r) rest = Some options ->
  reflect.IsVariadic (reflect.Method_Type (rule_method r)) = false ->
  reflect.NumIn (reflect.Method_Type (rule_method r)) = Z.of_nat N + 2 ->
  (1 <= i <= N)%nat ->
  reflect.ins (reflect.Method_Type (rule_method r)) !! i
  = Some (reflect.Defined key u) ->
  run (Run Parse range a CommandLine osArgs) s
  = Stop (Panicked "reflect: Call using argument of unassignable type") s.
Proof.
  intros Hcl Hargs Hr Hopt Hvar Hn Hi Hty.
  rewrite (Run_dispatch Parse range a CommandLine cl options osArgs rest name r s
             Hcl Hargs Hr Hopt).
  unfold dispatch.
  rewrite run_bind, (Run_params_list r _ N Hn), run_lift_Ret, run_bind.
  set (in_ := ValueOf_command (rule_command r)
              :: (reflect.ValueOf_string <$> padded N (flag.Args options))
              ++ [final_param (rule_slice r) (Z.of_nat N + 2)
                    (flag.Args options)]).
  assert (reflect.Call (rule_method r) in_
          = Panic "reflect: Call using argument of unassignable type") as ->;
    [|reflexivity].
  assert (len in_ = Z.of_nat N + 2) as Hlen.
  { unfold len, in_. simpl. rewrite length_app, length_fmap, length_padded.
    simpl. lia. }
  unfold reflect.Call. rewrite Hvar, Hn, Hlen.
  destruct (Z.ltb_spec (Z.of_nat N + 2) (Z.of_nat N + 2)); [lia|].
  cbn [negb andb].
  assert (forallb reflect.IsValid in_ = true) as ->.
  { unfold in_. simpl. rewrite forallb_IsValid_strings. simpl.
    rewrite final_param_valid by lia. reflexivity. }
  cbn [negb].
  rewrite take_ge by (unfold len in Hlen; lia).
  rewrite (all_assignable_false i in_ _
             (reflect.ValueOf_string (token (flag.Args options) (Z.of_nat (i - 1))))
             (reflect.Defined key u)); [reflexivity| |exact Hty|reflexivity].
  unfold in_. destruct i as [|j]; [lia|]. simpl.
  rewrite lookup_app_l by (rewrite length_fmap, length_padded; lia).
  rewrite list_lookup_fmap, padded_lookup by lia. simpl.
  rewrite Nat.sub_0_r. reflexivity.
Qed.

Lemma Run_defined_string_panics_witness :
  Rule cli_test.bare cli_test.runNamed "named" "<key> <value>"
  = Ret (cli_test.named_app,
         [made_FlagSet "named";
          called_Flags (TypeOf cli_test.runNamed)
            (flag.NewFlagSet "named" flag.ExitOnError)],
         None)
  /\ run (Run cli_test.Parse_plain cli_test.range_keys cli_test.named_app
            cli_test.CommandLine ["named"; "k"; "v"]) no_streams
     = Stop (Panicked "reflect: Call using argument of unassignable type")
            no_streams.
Proof.
  split; [reflexivity|].
  eapply (Run_defined_string_panics cli_test.Parse_plain cli_test.range_keys
            cli_test.named_app cli_test.CommandLine _ _ ["named"; "k"; "v"]
            ["k"; "v"] "named" cli_test.named_rule 1 1 "Key" cli_test.string_
            no_streams); try reflexivity.
  lia.
Defined.

(** ** Usage: the text of a rule *)

Lemma append_three (a b c : string) :
  String.append (String.append a b) c = String.append a (String.append b c).
Proof.
  induction a as [|x a IH]; [reflexivity|].
  change (String x (String.append (String.append a b) c)
          = String x (String.append a (String.append b c))).
  rewrite IH. reflexivity.
Qed.

Lemma insert_sorted_not_nil (fl : flag.Flag) (l : list flag.Flag) :
  flag.insert_sorted fl l <> [].
Proof. destruct l as [|x l]; simpl; [|destruct (String.leb _ _)]; discriminate. Qed.

Lemma VisitAll_nil (f : flag.FlagSet) :
  flag.VisitAll f = [] <-> flag.formal f = [].
Proof.
  unfold flag.VisitAll. destruct (flag.formal f) as [|fl l]; simpl.
  - split; reflexivity.
  - split; [|discriminate]. intros H.
    destruct (insert_sorted_not_nil fl (foldr flag.insert_sorted [] l) H).
Qed.

(** X19. The text of a rule in the usage is its name, followed by
    the mark [options] exactly when its flag set has a flag, followed
    by its usage arguments, after a space, exactly when they are not
    empty. *)
Theorem rule_String_parts (r : rule) :
  rule_String r
  = rule_name r
    ++ (match flag.formal (rule_options r) with
        | [] => EmptyString
        | _ :: _ => " [options]"
        end)
    ++ (match rule_arguments r with
        | EmptyString => EmptyString
        | String _ _ => " " ++ rule_arguments r
        end).
Proof.
  unfold rule_String.
  destruct (VisitAll_nil (rule_options r)) as [H1 H2].
  destruct (flag.formal (rule_options r)) as [|fl l] eqn:Hf.
  - rewrite (H2 eq_refl).
    destruct (rule_arguments r) as [|c args]; simpl.
    + rewrite append_empty. reflexivity.
    + reflexivity.
  - destruct (flag.VisitAll (rule_options r)) as [|x v]; [discriminate (H1 eq_refl)|].
    destruct (rule_arguments r) as [|c args]; simpl.
    + change (String.append (rule_name r) (String.append " [options]" EmptyString))
        with (String.append (rule_name r) " [options]"). reflexivity.
    + rewrite append_three. reflexivity.
Qed.
